(** * Retirement projection calculator (scripts/app.js)

    A shallow embedding of the computational core of [scripts/app.js]:
    the [FinancialProfile] class (constructor data, [validate],
    [hasWindfallInYear]) and the static methods of [CalculationEngine]
    ([project], [calculateSafeWithdrawal], [formatCurrency]).

    Modelling decisions.
    - Ages and calendar years are integers ([Z]).  Amounts of money and
      percentages are JavaScript numbers; they are idealised as exact
      rationals ([Q]): binary64 rounding, NaN and the infinities are
      outside the model, and the negative zero is kept only where
      [formatCurrency] prints it.  Numeric equality ([===] on numbers)
      is [Qeq].
    - A method is a function of the receiver object that returns a
      completion (normal value or thrown [Error]) together with the
      receiver as the method leaves it, so that what a call does to the
      profile is part of the model.
    - [new Date().getFullYear()] is the parameter [currentYear]; one
      calculation reads the same year at each of its clock reads. *)

From Stdlib Require Import ZArith QArith Qround Lqa Lia Bool List.
From Stdlib Require Import String Ascii DecimalString Qpower.
From Equations Require Import Equations.
Import ListNotations.

Local Open Scope Z_scope.
Local Open Scope Q_scope.

(** ** JavaScript numbers and built-ins *)

Module JS.

(** Relational operators on numbers, as booleans. *)
Definition le (x y : Q) : bool := Qle_bool x y.
Definition lt (x y : Q) : bool := negb (Qle_bool y x).
Definition ge (x y : Q) : bool := le y x.
Definition gt (x y : Q) : bool := lt y x.

(** [Math.round(x)]: the integer nearest to [x], ties towards +infinity. *)
Definition Math_round (x : Q) : Z := Qfloor (x + 0.5).

(** [Math.pow(b, k)] at an integer exponent. *)
Definition Math_pow (b : Q) (k : Z) : Q := b ^ k.

(** The decimal digits of a natural number, ["0"] for zero. *)
Definition digits (n : N) : string := NilZero.string_of_uint (N.to_uint n).

Fixpoint zeros (n : nat) : string :=
  match n with
  | O => EmptyString
  | S n' => String "0" (zeros n')
  end.

(** [x.toFixed(f)] (ECMA-262, Number.prototype.toFixed): the sign is set
    aside, [n] is the integer nearest to [x * 10^f] (the larger one on a
    tie), its digits are padded with zeros to at least [f + 1] characters
    and the point is put before the last [f] of them.  From [10^21] on
    the built-in switches to exponent notation, which is read off the
    binary64 value: the definition stands for the built-in below
    [10^21] only. *)
Definition toFixed (f : nat) (x : Q) : string :=
  let s := if lt x 0 then "-"%string else EmptyString in
  let x := if lt x 0 then - x else x in
  let n := Qfloor (x * inject_Z (10 ^ Z.of_nat f) + 0.5) in
  let m := digits (Z.to_N n) in
  if Nat.eqb f 0 then (s ++ m)%string
  else
    let k := String.length m in
    let m := if Nat.leb k f then (zeros (f + 1 - k) ++ m)%string else m in
    let k := String.length m in
    let a := substring 0 (k - f) m in
    let b := substring (k - f) f m in
    (s ++ a ++ "." ++ b)%string.

(** Digits, least significant first, with a comma after each full group
    of three that is followed by a further digit. *)
Fixpoint group (ds : list ascii) : list ascii :=
  match ds with
  | a :: b :: c :: (_ :: _) as rest => a :: b :: c :: ","%char :: group rest
  | _ => ds
  end.

(** [z.toLocaleString()] for an integer [z], the host locale being en-US:
    a minus sign for a negative number, digits in groups of three. *)
Definition toLocaleString (z : Z) : string :=
  let s := if (z <? 0)%Z then "-"%string else EmptyString in
  let ds := list_ascii_of_string (digits (Z.abs_N z)) in
  (s ++ string_of_list_ascii (rev (group (rev ds))))%string.

(** [Math.round(x).toLocaleString()].  On [-0.5 <= x < 0] [Math.round]
    gives the negative zero, which prints with its sign. *)
Definition round_toLocaleString (x : Q) : string :=
  if lt x 0 && ge x (-0.5) then "-0"%string
  else toLocaleString (Math_round x).

End JS.

(** ** Configuration *)

Record FinancialProfile : Type := {
  currentAge : Z;
  retirementAge : Z;
  currentSavings : Q;
  monthlyInvestment : Q;
  investmentReturn : Q;
  windfallAmount : Q;
  windfallEndYear : Z;
  rent : Q;
  otherExpenses : Q;
  expenseInflation : Q
}.

Module CONFIG.

Definition WITHDRAWAL_RATE : Q := 0.04.

Definition DEFAULT_PROFILE : FinancialProfile := {|
    currentAge := 47;
    retirementAge := 67;
    currentSavings := 0;
    monthlyInvestment := 250;
    investmentReturn := 7;
    windfallAmount := 10000;
    windfallEndYear := 2030;
    rent := 1200;
    otherExpenses := 800;
    expenseInflation := 3
  |}.

End CONFIG.

(** ** Methods: completions and the receiver *)

(** [new Error(message)]. *)
Record Error : Type := { message : string }.

Inductive completion (A : Type) : Type :=
| Normal (value : A)
| Throw (error : Error).

Arguments Normal {A} value.
Arguments Throw {A} error.

(** A method body run on the receiver [this]: its completion and the
    receiver afterwards. *)
Definition Method (A : Type) : Type :=
  FinancialProfile -> completion A * FinancialProfile.

Definition ret {A : Type} (a : A) : Method A := fun this => (Normal a, this).

Definition throw {A : Type} (e : Error) : Method A := fun this => (Throw e, this).

Definition bind {A B : Type} (m : Method A) (k : A -> Method B) : Method B :=
  fun this =>
    match m this with
    | (Normal a, this') => k a this'
    | (Throw e, this') => (Throw e, this')
    end.

(** Reading the field [f] of the receiver: [this.f]. *)
Definition get {A : Type} (f : FinancialProfile -> A) : Method A :=
  fun this => (Normal (f this), this).

(** [if (c) { body }] for a body that has no value. *)
Definition when (c : bool) (body : Method unit) : Method unit :=
  if c then body else ret tt.

Declare Scope method_scope.
Delimit Scope method_scope with method.
Bind Scope method_scope with Method.

Notation "x <- m ;; k" := (bind m (fun x => k))
  (at level 61, m at next level, right associativity) : method_scope.
Notation "m ;; k" := (bind m (fun _ => k))
  (at level 61, right associativity) : method_scope.

Local Open Scope method_scope.

(** ** FinancialProfile *)

(** The three errors of [validate], under the names of their rules. *)
Definition InvalidTimeline : Error :=
  {| message := "Retirement age must be greater than current age" |}.
Definition InvalidReturnRate : Error :=
  {| message := "Investment return must be between 0% and 50%" |}.
Definition InvalidWindfall : Error :=
  {| message := "Windfall amount cannot be negative" |}.

Definition validate : Method bool :=
  a <- get currentAge ;;
  r <- get retirementAge ;;
  when (a >=? r)%Z (throw InvalidTimeline) ;;
  i <- get investmentReturn ;;
  when (JS.lt i 0 || JS.gt i 50) (throw InvalidReturnRate) ;;
  w <- get windfallAmount ;;
  when (JS.lt w 0) (throw InvalidWindfall) ;;
  ret true.

Section Calculation.

(** [new Date().getFullYear()] at the time of the calculation. *)
Variable currentYear : Z.

Definition hasWindfallInYear (targetYear : Z) : Method bool :=
  let yearsFromNow := (targetYear - currentYear)%Z in
  a <- get currentAge ;;
  let ageAtYear := (a + yearsFromNow)%Z in
  r <- get retirementAge ;;
  e <- get windfallEndYear ;;
  w <- get windfallAmount ;;
  ret ((ageAtYear <? r)%Z && (targetYear <=? e)%Z && JS.gt w 0).

(** ** CalculationEngine *)

(** The object literal pushed onto [results]. *)
Record YearlyResult : Type := {
  year : Z;
  age : Z;
  portfolio : Q;
  futureRent : Q;
  futureOther : Q;
  totalMonthlyExpenses : Q;
  receivedWindfall : bool
}.

(** The body of the [for] statement of [project]: from the loop counter
    and the running [portfolioValue] to the updated [portfolioValue] and
    the object pushed at this iteration. *)
Definition iteration (yearOffset : Z) (portfolioValue : Q)
  : Method (Q * YearlyResult) :=
  let currentSimulationYear := (currentYear + yearOffset)%Z in
  a <- get currentAge ;;
  let currentAge := (a + yearOffset)%Z in
  i <- get investmentReturn ;;
  let portfolioValue := portfolioValue * (1 + i / 100) in
  m <- get monthlyInvestment ;;
  let portfolioValue := portfolioValue + m * 12 in
  applies <- hasWindfallInYear currentSimulationYear ;;
  portfolioValue <-
    (if applies : bool
     then w <- get windfallAmount ;; ret (portfolioValue + w)
     else ret portfolioValue) ;;
  e <- get expenseInflation ;;
  let inflationFactor := JS.Math_pow (1 + e / 100) yearOffset in
  r <- get rent ;;
  let futureMonthlyRent := r * inflationFactor in
  o <- get otherExpenses ;;
  let futureOtherMonthly := o * inflationFactor in
  received <- hasWindfallInYear currentSimulationYear ;;
  ret (portfolioValue,
       {| year := currentSimulationYear;
          age := currentAge;
          portfolio := portfolioValue;
          futureRent := futureMonthlyRent;
          futureOther := futureOtherMonthly;
          totalMonthlyExpenses := futureMonthlyRent + futureOtherMonthly;
          receivedWindfall := received |}).

(** [for (let yearOffset = ...; yearOffset <= yearsToProject; yearOffset++)]
    entered at [yearOffset], with [results.push] as append.  The distance
    of the counter to the bound decreases at each turn. *)
Equations for_loop (yearsToProject yearOffset : Z) (portfolioValue : Q)
    (results : list YearlyResult) : Method (list YearlyResult)
    by wf (Z.to_nat (yearsToProject + 1 - yearOffset)) lt :=
for_loop yearsToProject yearOffset portfolioValue results
    with Z_le_dec yearOffset yearsToProject := {
  | left _ =>
      pushed <- iteration yearOffset portfolioValue ;;
      for_loop yearsToProject (yearOffset + 1)%Z
               (fst pushed) (results ++ [snd pushed])
  | right _ => ret results }.
Next Obligation.
  lia.
Qed.

Definition project : Method (list YearlyResult) :=
  validate ;;
  r <- get retirementAge ;;
  a <- get currentAge ;;
  let yearsToProject := (r - a)%Z in
  portfolioValue <- get currentSavings ;;
  for_loop yearsToProject 0 portfolioValue [].

End Calculation.

Definition calculateSafeWithdrawal (finalPortfolioValue : Q) : Z :=
  let annualWithdrawal := finalPortfolioValue * CONFIG.WITHDRAWAL_RATE in
  let monthlyWithdrawal := annualWithdrawal / 12 in
  JS.Math_round monthlyWithdrawal.

Definition formatCurrency (value : Q) : string :=
  if JS.ge value 1000000000 then
    ("$" ++ JS.toFixed 2 (value / 1000000000) ++ "B")%string
  else if JS.ge value 1000000 then
    ("$" ++ JS.toFixed 2 (value / 1000000) ++ "M")%string
  else if JS.ge value 10000 then
    ("$" ++ JS.toFixed 1 (value / 1000) ++ "k")%string
  else
    ("$" ++ JS.round_toLocaleString value)%string.

(** ** Vocabulary of the specification *)

(** Section 4.1: the three rules a profile has to meet. *)
Definition Valid (p : FinancialProfile) : Prop :=
  (currentAge p < retirementAge p)%Z /\
  (0 <= investmentReturn p /\ investmentReturn p <= 50) /\
  0 <= windfallAmount p.

(** Section 4.2: the windfall applies in [targetYear]. *)
Definition WindfallApplies (referenceYear : Z) (p : FinancialProfile)
    (targetYear : Z) : Prop :=
  (currentAge p + (targetYear - referenceYear) < retirementAge p)%Z /\
  (targetYear <= windfallEndYear p)%Z /\
  0 < windfallAmount p.

(** ** The values the methods compute *)

(** The boolean [hasWindfallInYear] returns. *)
Definition applies (currentYear : Z) (p : FinancialProfile) (targetYear : Z)
  : bool :=
  (currentAge p + (targetYear - currentYear) <? retirementAge p)%Z
  && (targetYear <=? windfallEndYear p)%Z
  && JS.gt (windfallAmount p) 0.

(** [portfolioValue] at the end of the iteration at [yearOffset], from
    its value at the start. *)
Definition nextPortfolio (currentYear : Z) (p : FinancialProfile)
    (yearOffset : Z) (portfolioValue : Q) : Q :=
  let grown :=
    portfolioValue * (1 + investmentReturn p / 100)
    + monthlyInvestment p * 12 in
  if applies currentYear p (currentYear + yearOffset)
  then grown + windfallAmount p
  else grown.

(** [portfolioValue] when the iteration at offset [k] starts. *)
Fixpoint balance (currentYear : Z) (p : FinancialProfile) (k : nat) : Q :=
  match k with
  | O => currentSavings p
  | S j => nextPortfolio currentYear p (Z.of_nat j) (balance currentYear p j)
  end.

(** The object pushed by the iteration at [yearOffset]. *)
Definition entry (currentYear : Z) (p : FinancialProfile) (yearOffset : Z)
    (portfolioValue : Q) : YearlyResult :=
  let inflationFactor :=
    JS.Math_pow (1 + expenseInflation p / 100) yearOffset in
  {| year := currentYear + yearOffset;
     age := currentAge p + yearOffset;
     portfolio := nextPortfolio currentYear p yearOffset portfolioValue;
     futureRent := rent p * inflationFactor;
     futureOther := otherExpenses p * inflationFactor;
     totalMonthlyExpenses :=
       rent p * inflationFactor + otherExpenses p * inflationFactor;
     receivedWindfall := applies currentYear p (currentYear + yearOffset) |}.

(** The objects pushed by the [count] iterations from offset [start]. *)
Definition entries (currentYear : Z) (p : FinancialProfile)
    (start count : nat) : list YearlyResult :=
  map (fun k => entry currentYear p (Z.of_nat k) (balance currentYear p k))
      (seq start count).

(** The portfolio the iteration at offset [k] starts from, read off the
    sequence [project] returns. *)
Definition previous (p : FinancialProfile) (results : list YearlyResult)
    (k : nat) : Q :=
  match k with
  | O => currentSavings p
  | S j => nth j (map portfolio results) 0
  end.

(** The number of turns of the loop of [project] on a valid profile. *)
Definition turns (p : FinancialProfile) : nat :=
  Z.to_nat (retirementAge p - currentAge p + 1).

(** The profile of the worked example of the specification; the fields
    the example leaves open are parameters. *)
Definition exampleProfile (endYear : Z) (inflation : Q) : FinancialProfile := {|
  currentAge := 47;
  retirementAge := 48;
  currentSavings := 0;
  monthlyInvestment := 250;
  investmentReturn := 7;
  windfallAmount := 0;
  windfallEndYear := endYear;
  rent := 0;
  otherExpenses := 0;
  expenseInflation := inflation
|}.

(** ** UIManager and App

    The page is modelled by what the methods read from it and write to
    it.  [Id.Inputs] holds, for each of the nine input elements, what
    [_getInputValue] meets there: nothing when the element is missing,
    blank or not a number, and the number it parses to otherwise (whole
    numbers in the age and year inputs).  The elements the methods look
    up without a fallback ([.input-grid], [#summaryCards],
    [#projectionChart] and the two buttons) are present and the chart
    library is loaded.  Of the markup
    written to [#summaryCards] and of the chart configuration the model
    keeps the interpolated values.  Profiles are objects of a heap, so
    that two fields may hold the same object or two equal ones. *)

Module Id.

Record Inputs : Type := {
  currentAge : option Z;
  retirementAge : option Z;
  monthlyInvestment : option Q;
  investmentReturn : option Q;
  windfallAmount : option Q;
  windfallEndYear : option Z;
  rent : option Q;
  otherExpenses : option Q;
  expenseInflation : option Q
}.

End Id.

(** No element carries a number. *)
Definition noInputs : Id.Inputs := {|
  Id.currentAge := None;
  Id.retirementAge := None;
  Id.monthlyInvestment := None;
  Id.investmentReturn := None;
  Id.windfallAmount := None;
  Id.windfallEndYear := None;
  Id.rent := None;
  Id.otherExpenses := None;
  Id.expenseInflation := None
|}.

(** The input elements [_renderInputs] writes for a profile: each
    [value] attribute is the field, which reads back as itself. *)
Definition renderedInputs (p : FinancialProfile) : Id.Inputs := {|
  Id.currentAge := Some (currentAge p);
  Id.retirementAge := Some (retirementAge p);
  Id.monthlyInvestment := Some (monthlyInvestment p);
  Id.investmentReturn := Some (investmentReturn p);
  Id.windfallAmount := Some (windfallAmount p);
  Id.windfallEndYear := Some (windfallEndYear p);
  Id.rent := Some (rent p);
  Id.otherExpenses := Some (otherExpenses p);
  Id.expenseInflation := Some (expenseInflation p)
|}.

Definition _getInputValue {A : Type} (doc : Id.Inputs)
    (id : Id.Inputs -> option A) (defaultValue : A) : A :=
  match id doc with
  | None => defaultValue
  | Some value => value
  end.

(** Assignments [this.f = v] to the fields of a profile. *)
Definition set_currentAge (v : Z) (p : FinancialProfile) : FinancialProfile :=
  {| currentAge := v; retirementAge := retirementAge p;
     currentSavings := currentSavings p;
     monthlyInvestment := monthlyInvestment p;
     investmentReturn := investmentReturn p;
     windfallAmount := windfallAmount p;
     windfallEndYear := windfallEndYear p; rent := rent p;
     otherExpenses := otherExpenses p;
     expenseInflation := expenseInflation p |}.

Definition set_retirementAge (v : Z) (p : FinancialProfile)
  : FinancialProfile :=
  {| currentAge := currentAge p; retirementAge := v;
     currentSavings := currentSavings p;
     monthlyInvestment := monthlyInvestment p;
     investmentReturn := investmentReturn p;
     windfallAmount := windfallAmount p;
     windfallEndYear := windfallEndYear p; rent := rent p;
     otherExpenses := otherExpenses p;
     expenseInflation := expenseInflation p |}.

Definition set_monthlyInvestment (v : Q) (p : FinancialProfile)
  : FinancialProfile :=
  {| currentAge := currentAge p; retirementAge := retirementAge p;
     currentSavings := currentSavings p;
     monthlyInvestment := v;
     investmentReturn := investmentReturn p;
     windfallAmount := windfallAmount p;
     windfallEndYear := windfallEndYear p; rent := rent p;
     otherExpenses := otherExpenses p;
     expenseInflation := expenseInflation p |}.

Definition set_investmentReturn (v : Q) (p : FinancialProfile)
  : FinancialProfile :=
  {| currentAge := currentAge p; retirementAge := retirementAge p;
     currentSavings := currentSavings p;
     monthlyInvestment := monthlyInvestment p;
     investmentReturn := v;
     windfallAmount := windfallAmount p;
     windfallEndYear := windfallEndYear p; rent := rent p;
     otherExpenses := otherExpenses p;
     expenseInflation := expenseInflation p |}.

Definition set_windfallAmount (v : Q) (p : FinancialProfile)
  : FinancialProfile :=
  {| currentAge := currentAge p; retirementAge := retirementAge p;
     currentSavings := currentSavings p;
     monthlyInvestment := monthlyInvestment p;
     investmentReturn := investmentReturn p;
     windfallAmount := v;
     windfallEndYear := windfallEndYear p; rent := rent p;
     otherExpenses := otherExpenses p;
     expenseInflation := expenseInflation p |}.

Definition set_windfallEndYear (v : Z) (p : FinancialProfile)
  : FinancialProfile :=
  {| currentAge := currentAge p; retirementAge := retirementAge p;
     currentSavings := currentSavings p;
     monthlyInvestment := monthlyInvestment p;
     investmentReturn := investmentReturn p;
     windfallAmount := windfallAmount p;
     windfallEndYear := v; rent := rent p;
     otherExpenses := otherExpenses p;
     expenseInflation := expenseInflation p |}.

Definition set_rent (v : Q) (p : FinancialProfile) : FinancialProfile :=
  {| currentAge := currentAge p; retirementAge := retirementAge p;
     currentSavings := currentSavings p;
     monthlyInvestment := monthlyInvestment p;
     investmentReturn := investmentReturn p;
     windfallAmount := windfallAmount p;
     windfallEndYear := windfallEndYear p; rent := v;
     otherExpenses := otherExpenses p;
     expenseInflation := expenseInflation p |}.

Definition set_otherExpenses (v : Q) (p : FinancialProfile)
  : FinancialProfile :=
  {| currentAge := currentAge p; retirementAge := retirementAge p;
     currentSavings := currentSavings p;
     monthlyInvestment := monthlyInvestment p;
     investmentReturn := investmentReturn p;
     windfallAmount := windfallAmount p;
     windfallEndYear := windfallEndYear p; rent := rent p;
     otherExpenses := v;
     expenseInflation := expenseInflation p |}.

Definition set_expenseInflation (v : Q) (p : FinancialProfile)
  : FinancialProfile :=
  {| currentAge := currentAge p; retirementAge := retirementAge p;
     currentSavings := currentSavings p;
     monthlyInvestment := monthlyInvestment p;
     investmentReturn := investmentReturn p;
     windfallAmount := windfallAmount p;
     windfallEndYear := windfallEndYear p; rent := rent p;
     otherExpenses := otherExpenses p;
     expenseInflation := v |}.

Definition assign {A : Type}
    (set : A -> FinancialProfile -> FinancialProfile) (value : A)
  : Method unit :=
  fun this => (Normal tt, set value this).

(** The nine assignments of [_updateFromInputs], run on [this.profile]. *)
Definition updateFields (doc : Id.Inputs) : Method unit :=
  v <- get currentAge ;;
  assign set_currentAge (_getInputValue doc Id.currentAge v) ;;
  v <- get retirementAge ;;
  assign set_retirementAge (_getInputValue doc Id.retirementAge v) ;;
  v <- get monthlyInvestment ;;
  assign set_monthlyInvestment (_getInputValue doc Id.monthlyInvestment v) ;;
  v <- get investmentReturn ;;
  assign set_investmentReturn (_getInputValue doc Id.investmentReturn v) ;;
  v <- get windfallAmount ;;
  assign set_windfallAmount (_getInputValue doc Id.windfallAmount v) ;;
  v <- get windfallEndYear ;;
  assign set_windfallEndYear (_getInputValue doc Id.windfallEndYear v) ;;
  v <- get rent ;;
  assign set_rent (_getInputValue doc Id.rent v) ;;
  v <- get otherExpenses ;;
  assign set_otherExpenses (_getInputValue doc Id.otherExpenses v) ;;
  v <- get expenseInflation ;;
  assign set_expenseInflation (_getInputValue doc Id.expenseInflation v).

(** The values interpolated into the three cards of [#summaryCards]. *)
Record Summary : Type := {
  portfolioCard : string;
  atAge : Z;
  incomeCard : string;
  expensesCard : string
}.

(** The data of the chart: the ages of the labels and the two series. *)
Record Chart : Type := {
  labels : list Z;
  portfolioData : list Q;
  expensesData : list Q
}.

(** [formatCurrency(calculateSafeWithdrawal(v))].  The negative zero
    that [Math.round] gives on a monthly amount in [-0.5, 0) passes
    through [formatCurrency] and prints with its sign. *)
Definition formatSafeWithdrawal (v : Q) : string :=
  let monthlyWithdrawal := v * CONFIG.WITHDRAWAL_RATE / 12 in
  if JS.lt monthlyWithdrawal 0 && JS.ge monthlyWithdrawal (-0.5)
  then "$-0"%string
  else formatCurrency (inject_Z (calculateSafeWithdrawal v)).

Definition ref : Type := nat.

Definition store (r : ref) (p : FinancialProfile)
    (h : ref -> FinancialProfile) : ref -> FinancialProfile :=
  fun r' => if Nat.eqb r' r then p else h r'.

(** The objects, the fields of [window.app] and of its [ui], and the
    page. *)
Record State : Type := {
  heap : ref -> FinancialProfile;
  next : ref;
  app_profile : ref;
  ui_profile : option ref;
  ui_chart : option Chart;
  inputs : Id.Inputs;
  summaryCards : option Summary;
  alerts : list string;
  console : list Error
}.

Definition with_heap (h : ref -> FinancialProfile) (s : State) : State :=
  {| heap := h; next := next s; app_profile := app_profile s;
     ui_profile := ui_profile s; ui_chart := ui_chart s;
     inputs := inputs s; summaryCards := summaryCards s;
     alerts := alerts s; console := console s |}.

Definition with_inputs (doc : Id.Inputs) (s : State) : State :=
  {| heap := heap s; next := next s; app_profile := app_profile s;
     ui_profile := ui_profile s; ui_chart := ui_chart s;
     inputs := doc; summaryCards := summaryCards s;
     alerts := alerts s; console := console s |}.

(** [_updateFromInputs]: nothing without a profile. *)
Definition _updateFromInputs (s : State) : State :=
  match ui_profile s with
  | None => s
  | Some r =>
      with_heap (store r (snd (updateFields (inputs s) (heap s r))) (heap s)) s
  end.

(** [_renderInputs]: reading [this.profile.currentAge] of a null profile
    is a TypeError, here [None]. *)
Definition _renderInputs (s : State) : option State :=
  match ui_profile s with
  | None => None
  | Some r => Some (with_inputs (renderedInputs (heap s r)) s)
  end.

Definition _updateChart (data : list YearlyResult) (s : State) : State :=
  {| heap := heap s; next := next s; app_profile := app_profile s;
     ui_profile := ui_profile s;
     ui_chart :=
       Some {| labels := map age data;
               portfolioData := map portfolio data;
               expensesData :=
                 map (fun d => totalMonthlyExpenses d * 12) data |};
     inputs := inputs s; summaryCards := summaryCards s;
     alerts := alerts s; console := console s |}.

Definition updateResults (projectionData : list YearlyResult) (profile : ref)
    (s : State) : State :=
  match nth_error projectionData (List.length projectionData - 1) with
  | None => s
  | Some finalResult =>
      _updateChart projectionData
        {| heap := heap s; next := next s; app_profile := app_profile s;
           ui_profile := ui_profile s; ui_chart := ui_chart s;
           inputs := inputs s;
           summaryCards :=
             Some {| portfolioCard := formatCurrency (portfolio finalResult);
                     atAge := retirementAge (heap s profile);
                     incomeCard :=
                       formatSafeWithdrawal (portfolio finalResult);
                     expensesCard :=
                       formatCurrency (totalMonthlyExpenses finalResult) |};
           alerts := alerts s; console := console s |}
  end.

Section App.

Variable currentYear : Z.

(** [App.calculate]: the [try] block and its [catch]. *)
Definition calculate (s : State) : State :=
  let this_profile := app_profile s in
  match project currentYear (heap s this_profile) with
  | (Normal results, p) =>
      updateResults results this_profile
        (with_heap (store this_profile p (heap s)) s)
  | (Throw error, p) =>
      {| heap := store this_profile p (heap s); next := next s;
         app_profile := app_profile s; ui_profile := ui_profile s;
         ui_chart := ui_chart s; inputs := inputs s;
         summaryCards := summaryCards s;
         alerts := ("Error: " ++ message error)%string :: alerts s;
         console := error :: console s |}
  end.

(** The handler of the calculate button, which the debounced handler of
    the input elements repeats. *)
Definition recalculate (s : State) : State :=
  calculate (_updateFromInputs s).

(** [App.reset]: a fresh copy of the default profile, held by the app
    and by its [ui]. *)
Definition reset (s : State) : option State :=
  let r := next s in
  let s :=
    {| heap := store r CONFIG.DEFAULT_PROFILE (heap s); next := S r;
       app_profile := r; ui_profile := Some r; ui_chart := ui_chart s;
       inputs := inputs s; summaryCards := summaryCards s;
       alerts := alerts s; console := console s |} in
  match _renderInputs s with
  | None => None
  | Some s => Some (calculate s)
  end.

(** [UIManager.initialize], [_bindEvents] leaving the state as it is. *)
Definition initialize (s : State) : option State :=
  let r := next s in
  let s :=
    {| heap := store r CONFIG.DEFAULT_PROFILE (heap s); next := S r;
       app_profile := app_profile s; ui_profile := Some r;
       ui_chart := ui_chart s; inputs := inputs s;
       summaryCards := summaryCards s;
       alerts := alerts s; console := console s |} in
  match _renderInputs s with
  | None => None
  | Some s => Some (calculate (_updateFromInputs s))
  end.

(** The page before its script runs. *)
Definition blank : State :=
  {| heap := fun _ => CONFIG.DEFAULT_PROFILE; next := O; app_profile := O;
     ui_profile := None; ui_chart := None; inputs := noInputs;
     summaryCards := None; alerts := []; console := [] |}.

(** The [DOMContentLoaded] listener: [new App()], then [init]. *)
Definition load : option State :=
  let r := next blank in
  initialize
    {| heap := store r CONFIG.DEFAULT_PROFILE (heap blank); next := S r;
       app_profile := r; ui_profile := None; ui_chart := None;
       inputs := inputs blank; summaryCards := summaryCards blank;
       alerts := alerts blank; console := console blank |}.

(** What happens to the loaded page: the user leaves the inputs in some
    state, the calculate handler runs (from the button or from the
    debounced input listener), or the reset button is clicked. *)
Inductive Event : Type :=
| UserEdits (doc : Id.Inputs)
| CalculateFires
| ResetClicked.

Definition handle (e : Event) (s : State) : option State :=
  match e with
  | UserEdits doc => Some (with_inputs doc s)
  | CalculateFires => Some (recalculate s)
  | ResetClicked => reset s
  end.

(** The page after its load and a sequence of events. *)
Fixpoint after (s : option State) (events : list Event) : option State :=
  match events with
  | [] => s
  | e :: events' =>
      match s with
      | None => None
      | Some s => after (handle e s) events'
      end
  end.

Definition isReset (e : Event) : bool :=
  match e with
  | ResetClicked => true
  | _ => false
  end.

End App.

(** The profile of the app is the first object, still the default one,
    the [ui] holds the second, and the page shows the projection of the
    default profile without an alert. *)
Definition showsDefaults (currentYear : Z) (s : State) : Prop :=
  app_profile s = 0%nat /\
  ui_profile s = Some 1%nat /\
  heap s 0%nat = CONFIG.DEFAULT_PROFILE /\
  summaryCards s = summaryCards (calculate currentYear blank) /\
  ui_chart s = ui_chart (calculate currentYear blank) /\
  alerts s = [].

(** The app and its [ui] hold the same profile object. *)
Definition shared (s : State) : Prop :=
  ui_profile s = Some (app_profile s).

(** The [ui] holds a profile, and the current savings of this profile
    and of the profile of the app are zero. *)
Definition noSavings (s : State) : Prop :=
  currentSavings (heap s (app_profile s)) = 0 /\
  exists u : ref,
    ui_profile s = Some u /\ currentSavings (heap s u) = 0.

(** * Properties *)

(** The rules of [Valid] on a profile given in full. *)
Ltac valid_by_computation :=
  unfold Valid; cbn; repeat split; try lia; discriminate.

(** ** Comparisons *)

Lemma lt_true (x y : Q) : JS.lt x y = true <-> x < y.
Proof.
  unfold JS.lt. rewrite negb_true_iff, <- not_true_iff_false, Qle_bool_iff.
  split; [apply Qnot_le_lt | apply Qlt_not_le].
Qed.

Lemma lt_false (x y : Q) : JS.lt x y = false <-> y <= x.
Proof.
  unfold JS.lt. rewrite negb_false_iff. apply Qle_bool_iff.
Qed.

Lemma ge_true (x y : Q) : JS.ge x y = true <-> y <= x.
Proof. apply Qle_bool_iff. Qed.

Lemma ge_false (x y : Q) : JS.ge x y = false <-> x < y.
Proof.
  unfold JS.ge, JS.le. rewrite <- not_true_iff_false, Qle_bool_iff.
  split; [apply Qnot_le_lt | apply Qlt_not_le].
Qed.

Lemma gt_true (x y : Q) : JS.gt x y = true <-> y < x.
Proof. apply lt_true. Qed.

(** ** Running the methods *)

Lemma applies_iff (y : Z) (p : FinancialProfile) (t : Z) :
  applies y p t = true <-> WindfallApplies y p t.
Proof.
  unfold applies, WindfallApplies.
  rewrite !andb_true_iff, Z.ltb_lt, Z.leb_le, gt_true. tauto.
Qed.

Lemma hasWindfallInYear_run (y t : Z) (p : FinancialProfile) :
  hasWindfallInYear y t p = (Normal (applies y p t), p).
Proof. reflexivity. Qed.

Lemma validate_timeline (p : FinancialProfile) :
  (retirementAge p <= currentAge p)%Z ->
  validate p = (Throw InvalidTimeline, p).
Proof.
  intros H. unfold validate, bind, get, when; cbn.
  destruct (Z.geb_spec (currentAge p) (retirementAge p)); [reflexivity | lia].
Qed.

Lemma validate_rate (p : FinancialProfile) :
  (currentAge p < retirementAge p)%Z ->
  investmentReturn p < 0 \/ 50 < investmentReturn p ->
  validate p = (Throw InvalidReturnRate, p).
Proof.
  intros Ha Hi. unfold validate, bind, get, when; cbn.
  destruct (Z.geb_spec (currentAge p) (retirementAge p)); [lia |].
  cbn. replace (JS.lt (investmentReturn p) 0 || JS.gt (investmentReturn p) 50)
    with true; [reflexivity |].
  symmetry. apply orb_true_iff.
  destruct Hi; [left; now apply lt_true | right; now apply gt_true].
Qed.

Lemma rate_in_range (p : FinancialProfile) :
  0 <= investmentReturn p /\ investmentReturn p <= 50 ->
  JS.lt (investmentReturn p) 0 || JS.gt (investmentReturn p) 50 = false.
Proof.
  intros [H0 H50]. apply orb_false_iff. split; now apply lt_false.
Qed.

Lemma validate_windfall (p : FinancialProfile) :
  (currentAge p < retirementAge p)%Z ->
  0 <= investmentReturn p /\ investmentReturn p <= 50 ->
  windfallAmount p < 0 ->
  validate p = (Throw InvalidWindfall, p).
Proof.
  intros Ha Hi Hw. unfold validate, bind, get, when; cbn.
  destruct (Z.geb_spec (currentAge p) (retirementAge p)); [lia |].
  cbn. rewrite (rate_in_range p Hi). cbn.
  apply lt_true in Hw. rewrite Hw. reflexivity.
Qed.

Lemma validate_ok (p : FinancialProfile) :
  Valid p -> validate p = (Normal true, p).
Proof.
  intros (Ha & Hi & Hw). unfold validate, bind, get, when; cbn.
  destruct (Z.geb_spec (currentAge p) (retirementAge p)); [lia |].
  cbn. rewrite (rate_in_range p Hi). cbn.
  apply lt_false in Hw. rewrite Hw. reflexivity.
Qed.

(** A profile is valid or breaks a first rule. *)
Lemma Valid_cases (p : FinancialProfile) :
  Valid p
  \/ (retirementAge p <= currentAge p)%Z
  \/ ((currentAge p < retirementAge p)%Z
      /\ (investmentReturn p < 0 \/ 50 < investmentReturn p))
  \/ ((currentAge p < retirementAge p)%Z
      /\ (0 <= investmentReturn p /\ investmentReturn p <= 50)
      /\ windfallAmount p < 0).
Proof.
  unfold Valid.
  destruct (Z_lt_le_dec (currentAge p) (retirementAge p)); [| tauto].
  destruct (Qlt_le_dec (investmentReturn p) 0); [tauto |].
  destruct (Qlt_le_dec 50 (investmentReturn p)); [tauto |].
  destruct (Qlt_le_dec (windfallAmount p) 0); tauto.
Qed.

Lemma iteration_run (y k : Z) (v : Q) (p : FinancialProfile) :
  iteration y k v p = (Normal (nextPortfolio y p k v, entry y p k v), p).
Proof.
  unfold nextPortfolio, entry, nextPortfolio.
  unfold iteration, bind, get, ret.
  rewrite hasWindfallInYear_run.
  destruct (applies y p (y + k)) eqn:E;
    cbv beta iota; rewrite hasWindfallInYear_run, E; reflexivity.
Qed.

Lemma for_loop_enter (y n k : Z) (v : Q) (rs : list YearlyResult)
    (p : FinancialProfile) :
  (k <= n)%Z ->
  for_loop y n k v rs p =
  for_loop y n (k + 1) (nextPortfolio y p k v) (rs ++ [entry y p k v]) p.
Proof.
  intros H. rewrite for_loop_equation_1.
  destruct (Z_le_dec k n) as [l | l]; [| contradiction].
  rewrite for_loop_clause_1_equation_1.
  unfold bind at 1. rewrite iteration_run. reflexivity.
Qed.

Lemma for_loop_exit (y n k : Z) (v : Q) (rs : list YearlyResult)
    (p : FinancialProfile) :
  (n < k)%Z -> for_loop y n k v rs p = (Normal rs, p).
Proof.
  intros H. rewrite for_loop_equation_1.
  destruct (Z_le_dec k n) as [l | l]; [lia | reflexivity].
Qed.

Lemma for_loop_run (y n : Z) (p : FinancialProfile) (count : nat) :
  forall (k : nat) (rs : list YearlyResult),
    Z.of_nat count = Z.max 0 (n + 1 - Z.of_nat k) ->
    for_loop y n (Z.of_nat k) (balance y p k) rs p =
    (Normal (rs ++ entries y p k count), p).
Proof.
  induction count as [| count IH]; intros k rs Hc.
  - rewrite for_loop_exit by lia.
    unfold entries; cbn. now rewrite app_nil_r.
  - rewrite for_loop_enter by lia.
    replace (Z.of_nat k + 1)%Z with (Z.of_nat (S k)) by lia.
    change (nextPortfolio y p (Z.of_nat k) (balance y p k))
      with (balance y p (S k)).
    rewrite IH by lia.
    unfold entries; cbn. now rewrite <- app_assoc.
Qed.

Lemma project_run (y : Z) (p : FinancialProfile) :
  Valid p -> project y p = (Normal (entries y p 0 (turns p)), p).
Proof.
  intros Hv. unfold project, bind at 1. rewrite (validate_ok p Hv).
  unfold bind, get; cbn.
  change 0%Z with (Z.of_nat 0).
  change (currentSavings p) with (balance y p 0).
  rewrite (for_loop_run y _ p (turns p)); [reflexivity |].
  unfold turns. destruct Hv as (Ha & _). lia.
Qed.

Lemma project_throws (y : Z) (p : FinancialProfile) (e : Error) :
  validate p = (Throw e, p) -> project y p = (Throw e, p).
Proof.
  intros H. unfold project, bind at 1. now rewrite H.
Qed.

(** ** The sequence of pushed objects *)

Lemma entries_length (y : Z) (p : FinancialProfile) (s c : nat) :
  List.length (entries y p s c) = c.
Proof. unfold entries. now rewrite length_map, length_seq. Qed.

Lemma entries_nth (y : Z) (p : FinancialProfile) (c k : nat)
    (r : YearlyResult) :
  nth_error (entries y p 0 c) k = Some r ->
  (k < c)%nat /\ r = entry y p (Z.of_nat k) (balance y p k).
Proof.
  intros H.
  assert (Hk : (k < c)%nat).
  { rewrite <- (entries_length y p 0 c). apply nth_error_Some. congruence. }
  split; [exact Hk |].
  unfold entries in H. rewrite nth_error_map, nth_error_seq in H.
  destruct (Nat.ltb_spec k c); [| lia].
  cbn in H. congruence.
Qed.

Lemma entries_previous (y : Z) (p : FinancialProfile) (c k : nat) :
  (k < c)%nat -> previous p (entries y p 0 c) k = balance y p k.
Proof.
  intros Hk. destruct k as [| j]; [reflexivity |].
  unfold previous.
  rewrite (nth_error_nth _ _ 0 (x := balance y p (S j))); [reflexivity |].
  rewrite nth_error_map. unfold entries.
  rewrite nth_error_map, nth_error_seq.
  destruct (Nat.ltb_spec j c); [reflexivity | lia].
Qed.

Lemma nextPortfolio_applies (y : Z) (p : FinancialProfile) (k : Z) (v : Q) :
  WindfallApplies y p (y + k) ->
  nextPortfolio y p k v =
  v * (1 + investmentReturn p / 100) + monthlyInvestment p * 12
  + windfallAmount p.
Proof.
  intros H. unfold nextPortfolio.
  apply applies_iff in H. rewrite H. reflexivity.
Qed.

Lemma nextPortfolio_skips (y : Z) (p : FinancialProfile) (k : Z) (v : Q) :
  ~ WindfallApplies y p (y + k) ->
  nextPortfolio y p k v =
  v * (1 + investmentReturn p / 100) + monthlyInvestment p * 12.
Proof.
  intros H. unfold nextPortfolio.
  destruct (applies y p (y + k)) eqn:E; [| reflexivity].
  apply applies_iff in E. contradiction.
Qed.

Lemma exampleProfile_valid (e : Z) (i : Q) : Valid (exampleProfile e i).
Proof. valid_by_computation. Qed.

Lemma exampleProfile_no_windfall (y e : Z) (i : Q) (t : Z) :
  ~ WindfallApplies y (exampleProfile e i) t.
Proof.
  intros (_ & _ & H). cbn in H. lra.
Qed.

(** C1. On a valid profile [project] returns a sequence in which the
    portfolio of the entry at offset [k] is the previous portfolio (the
    current savings at offset 0) times [1 + investmentReturn/100], plus
    twelve monthly investments, plus the windfall amount exactly when the
    windfall applies in year [currentYear + k].  On the example profile
    (47 to 48, 250 a month at 7 percent, nothing else) the two portfolios
    are 3000 and 6210. *)
Theorem project_portfolio_steps :
  (forall (y : Z) (p : FinancialProfile),
      Valid p ->
      exists results,
        fst (project y p) = Normal results /\
        forall (k : nat) (r : YearlyResult),
          nth_error results k = Some r ->
          let grown := previous p results k * (1 + investmentReturn p / 100) in
          let contributed := grown + monthlyInvestment p * 12 in
          (WindfallApplies y p (y + Z.of_nat k) ->
           portfolio r == contributed + windfallAmount p) /\
          (~ WindfallApplies y p (y + Z.of_nat k) ->
           portfolio r == contributed))
  /\
  (forall (y e : Z) (i : Q),
      exists r0 r1,
        fst (project y (exampleProfile e i)) = Normal [r0; r1] /\
        portfolio r0 == 3000 /\ portfolio r1 == 6210).
Proof.
  split.
  - intros y p Hv. exists (entries y p 0 (turns p)).
    rewrite (project_run y p Hv). split; [reflexivity |].
    intros k r Hr. apply entries_nth in Hr as [Hk ->].
    cbv zeta. rewrite (entries_previous y p _ k Hk). cbn [portfolio entry].
    split; intros H.
    + now rewrite nextPortfolio_applies.
    + now rewrite nextPortfolio_skips.
  - intros y e i. rewrite (project_run y _ (exampleProfile_valid e i)).
    unfold turns, entries; cbn [map seq Z.to_nat].
    change (Z.to_nat (retirementAge (exampleProfile e i)
                      - currentAge (exampleProfile e i) + 1)) with 2%nat.
    cbn [map seq]. eexists _, _. split; [reflexivity |].
    cbn [portfolio entry balance].
    rewrite !nextPortfolio_skips by apply exampleProfile_no_windfall.
    cbn. split; reflexivity.
Qed.

(** The first part of C1 at the default profile in 2026. *)
Lemma project_portfolio_steps_witness :
  Valid CONFIG.DEFAULT_PROFILE /\
  exists results,
    fst (project 2026 CONFIG.DEFAULT_PROFILE) = Normal results /\
    forall (k : nat) (r : YearlyResult),
      nth_error results k = Some r ->
      let grown := previous CONFIG.DEFAULT_PROFILE results k * (1 + 7 / 100) in
      let contributed := grown + 250 * 12 in
      (WindfallApplies 2026 CONFIG.DEFAULT_PROFILE (2026 + Z.of_nat k) ->
       portfolio r == contributed + 10000) /\
      (~ WindfallApplies 2026 CONFIG.DEFAULT_PROFILE (2026 + Z.of_nat k) ->
       portfolio r == contributed).
Proof.
  assert (Hv : Valid CONFIG.DEFAULT_PROFILE).
  { valid_by_computation. }
  split; [exact Hv |].
  exact (proj1 project_portfolio_steps 2026%Z CONFIG.DEFAULT_PROFILE Hv).
Defined.

(** C2. On a valid profile [project] returns
    [retirementAge - currentAge + 1] entries; the entry at offset [k] has
    age [currentAge + k] and year [currentYear + k], so the ages run from
    [currentAge] to [retirementAge] without a gap. *)
Theorem project_length_ages_years (y : Z) (p : FinancialProfile) :
  Valid p ->
  exists results,
    fst (project y p) = Normal results /\
    Z.of_nat (List.length results) = (retirementAge p - currentAge p + 1)%Z /\
    (forall (k : nat) (r : YearlyResult),
        nth_error results k = Some r ->
        age r = (currentAge p + Z.of_nat k)%Z /\
        year r = (y + Z.of_nat k)%Z) /\
    (forall r : YearlyResult,
        nth_error results (List.length results - 1) = Some r ->
        age r = retirementAge p).
Proof.
  intros Hv. exists (entries y p 0 (turns p)).
  rewrite (project_run y p Hv). split; [reflexivity |].
  rewrite entries_length.
  assert (Hn : Z.of_nat (turns p) = (retirementAge p - currentAge p + 1)%Z).
  { unfold turns. destruct Hv as (Ha & _). lia. }
  destruct Hv as (Ha & _).
  split; [exact Hn |]. split.
  - intros k r Hr. apply entries_nth in Hr as [_ ->]. split; reflexivity.
  - intros r Hr. apply entries_nth in Hr as [_ ->]. cbn [age entry]. lia.
Qed.

Lemma project_length_ages_years_witness :
  exists results,
    fst (project 2026 CONFIG.DEFAULT_PROFILE) = Normal results /\
    Z.of_nat (List.length results) = 21%Z /\
    (forall (k : nat) (r : YearlyResult),
        nth_error results k = Some r ->
        age r = (47 + Z.of_nat k)%Z /\ year r = (2026 + Z.of_nat k)%Z) /\
    (forall r : YearlyResult,
        nth_error results (List.length results - 1) = Some r -> age r = 67%Z).
Proof.
  apply (project_length_ages_years 2026 CONFIG.DEFAULT_PROFILE).
  valid_by_computation.
Defined.

(** C3. [hasWindfallInYear] returns true exactly when the age in the
    target year is below the retirement age, the target year is not after
    the windfall end year and the windfall amount is positive; it returns
    false as soon as one of the three fails.  The [receivedWindfall] flag
    of each entry of a projection is that test at the entry's year. *)
Theorem windfall_rule (y : Z) (p : FinancialProfile) :
  (forall t : Z,
      exists b : bool,
        fst (hasWindfallInYear y t p) = Normal b /\
        (b = true <-> WindfallApplies y p t) /\
        ((retirementAge p <= currentAge p + (t - y))%Z -> b = false) /\
        ((windfallEndYear p < t)%Z -> b = false) /\
        (windfallAmount p <= 0 -> b = false))
  /\
  (Valid p ->
   exists results,
     fst (project y p) = Normal results /\
     forall (k : nat) (r : YearlyResult),
       nth_error results k = Some r ->
       year r = (y + Z.of_nat k)%Z /\
       (receivedWindfall r = true <-> WindfallApplies y p (year r))).
Proof.
  split.
  - intros t. exists (applies y p t).
    rewrite hasWindfallInYear_run. split; [reflexivity |].
    split; [apply applies_iff |].
    repeat split; intros H;
      apply not_true_is_false; rewrite applies_iff;
      intros (H1 & H2 & H3); try lia.
    apply (Qlt_not_le _ _ H3 H).
  - intros Hv. exists (entries y p 0 (turns p)).
    rewrite (project_run y p Hv). split; [reflexivity |].
    intros k r Hr. apply entries_nth in Hr as [_ ->].
    split; [reflexivity |]. apply applies_iff.
Qed.

Lemma windfall_rule_witness :
  exists results,
    fst (project 2026 CONFIG.DEFAULT_PROFILE) = Normal results /\
    forall (k : nat) (r : YearlyResult),
      nth_error results k = Some r ->
      year r = (2026 + Z.of_nat k)%Z /\
      (receivedWindfall r = true <->
       WindfallApplies 2026 CONFIG.DEFAULT_PROFILE (year r)).
Proof.
  apply (proj2 (windfall_rule 2026 CONFIG.DEFAULT_PROFILE)).
  valid_by_computation.
Defined.

Lemma errors_distinct :
  InvalidTimeline <> InvalidReturnRate /\
  InvalidTimeline <> InvalidWindfall /\
  InvalidReturnRate <> InvalidWindfall.
Proof. repeat split; discriminate. Qed.

Lemma project_normal_valid (y : Z) (p : FinancialProfile)
    (results : list YearlyResult) :
  fst (project y p) = Normal results -> Valid p.
Proof.
  intros H.
  destruct (Valid_cases p) as [Hv | [Ha | [[Ha Hi] | (Ha & Hi & Hw)]]];
    [exact Hv | exfalso ..].
  - rewrite (project_throws y p _ (validate_timeline p Ha)) in H.
    discriminate.
  - rewrite (project_throws y p _ (validate_rate p Ha Hi)) in H.
    discriminate.
  - rewrite (project_throws y p _ (validate_windfall p Ha Hi Hw)) in H.
    discriminate.
Qed.

(** C4. [validate] checks its rules in order, the first failure winning:
    it throws [InvalidTimeline] unless [currentAge < retirementAge], then
    [InvalidReturnRate] unless [0 <= investmentReturn <= 50], then
    [InvalidWindfall] unless [windfallAmount >= 0], and returns true when
    the three hold.  The three errors are pairwise distinct.  [project]
    throws the error of [validate] and returns a sequence on valid
    profiles only; a thrown error is never a returned sequence. *)
Theorem validate_rules (p : FinancialProfile) :
  ((retirementAge p <= currentAge p)%Z ->
   fst (validate p) = Throw InvalidTimeline) /\
  ((currentAge p < retirementAge p)%Z ->
   investmentReturn p < 0 \/ 50 < investmentReturn p ->
   fst (validate p) = Throw InvalidReturnRate) /\
  ((currentAge p < retirementAge p)%Z ->
   0 <= investmentReturn p /\ investmentReturn p <= 50 ->
   windfallAmount p < 0 ->
   fst (validate p) = Throw InvalidWindfall) /\
  (Valid p -> fst (validate p) = Normal true) /\
  (InvalidTimeline <> InvalidReturnRate /\
   InvalidTimeline <> InvalidWindfall /\
   InvalidReturnRate <> InvalidWindfall) /\
  (forall (y : Z) (e : Error),
      fst (validate p) = Throw e -> fst (project y p) = Throw e) /\
  (forall (y : Z) (results : list YearlyResult),
      fst (project y p) = Normal results -> Valid p) /\
  (forall (e : Error) (results : list YearlyResult),
      @Throw (list YearlyResult) e <> Normal results).
Proof.
  split; [intros H; now rewrite validate_timeline |].
  split; [intros Ha Hi; now rewrite validate_rate |].
  split; [intros Ha Hi Hw; now rewrite validate_windfall |].
  split; [intros Hv; now rewrite validate_ok |].
  split; [exact errors_distinct |].
  split; [| split; [intros y; apply project_normal_valid | discriminate]].
  intros y e H. unfold project, bind at 1.
  destruct (validate p) as [[b | e'] p']; cbn in H; [discriminate |].
  cbn. now injection H as ->.
Qed.

(** C4 at a profile whose retirement age is its current age. *)
Lemma validate_rules_witness :
  fst (validate (exampleProfile 2030 3)) = Normal true /\
  fst (validate {| currentAge := 67; retirementAge := 67;
                   currentSavings := 0; monthlyInvestment := 250;
                   investmentReturn := 70; windfallAmount := -1;
                   windfallEndYear := 2030; rent := 1200;
                   otherExpenses := 800; expenseInflation := 3 |})
  = Throw InvalidTimeline.
Proof.
  split.
  - apply (proj1 (proj2 (proj2 (proj2 (validate_rules _))))).
    valid_by_computation.
  - apply (proj1 (validate_rules _)). cbn. lia.
Defined.

(** The entry pushed at an offset below the number of turns. *)
Lemma entries_at (y : Z) (p : FinancialProfile) (c k : nat) :
  (k < c)%nat ->
  nth_error (entries y p 0 c) k
  = Some (entry y p (Z.of_nat k) (balance y p k)).
Proof.
  intros Hk. unfold entries. rewrite nth_error_map, nth_error_seq.
  destruct (Nat.ltb_spec k c); [reflexivity | lia].
Qed.

(** C5. On a valid profile the projection has
    [retirementAge - currentAge + 1] entries, and at every offset [k]
    from 0 to [retirementAge - currentAge] it has an entry that carries
    the rent and the other expenses multiplied by
    [(1 + expenseInflation/100)^k], and their sum as total; at offset 0
    the two are the profile's own. *)
Theorem project_expenses (y : Z) (p : FinancialProfile) :
  Valid p ->
  exists results,
    fst (project y p) = Normal results /\
    Z.of_nat (List.length results) = (retirementAge p - currentAge p + 1)%Z /\
    forall k : nat,
      (Z.of_nat k <= retirementAge p - currentAge p)%Z ->
      exists r : YearlyResult,
        nth_error results k = Some r /\
        futureRent r
        == rent p * (1 + expenseInflation p / 100) ^ Z.of_nat k /\
        futureOther r
        == otherExpenses p * (1 + expenseInflation p / 100) ^ Z.of_nat k /\
        totalMonthlyExpenses r == futureRent r + futureOther r /\
        (k = 0%nat ->
         futureRent r == rent p /\ futureOther r == otherExpenses p).
Proof.
  intros Hv. exists (entries y p 0 (turns p)).
  rewrite (project_run y p Hv). split; [reflexivity |].
  rewrite entries_length. destruct Hv as (Ha & _).
  split; [unfold turns; lia |].
  intros k Hk. exists (entry y p (Z.of_nat k) (balance y p k)).
  split; [apply entries_at; unfold turns; lia |].
  cbn [futureRent futureOther totalMonthlyExpenses entry].
  unfold JS.Math_pow.
  repeat split; try reflexivity; subst k; cbn [Z.of_nat Qpower]; ring.
Qed.

Lemma project_expenses_witness :
  exists results,
    fst (project 2026 CONFIG.DEFAULT_PROFILE) = Normal results /\
    Z.of_nat (List.length results) = 21%Z /\
    forall k : nat,
      (Z.of_nat k <= 20)%Z ->
      exists r : YearlyResult,
        nth_error results k = Some r /\
        futureRent r == 1200 * (1 + 3 / 100) ^ Z.of_nat k /\
        futureOther r == 800 * (1 + 3 / 100) ^ Z.of_nat k /\
        totalMonthlyExpenses r == futureRent r + futureOther r /\
        (k = 0%nat -> futureRent r == 1200 /\ futureOther r == 800).
Proof.
  apply (project_expenses 2026 CONFIG.DEFAULT_PROFILE).
  valid_by_computation.
Defined.

(** ** Derived metrics *)

Lemma Math_round_nearest (x : Q) :
  x - 0.5 < inject_Z (JS.Math_round x) /\ inject_Z (JS.Math_round x) <= x + 0.5.
Proof.
  unfold JS.Math_round. split.
  - pose proof (Qlt_floor (x + 0.5)) as H.
    rewrite inject_Z_plus in H. change (inject_Z 1) with 1 in H. lra.
  - apply Qfloor_le.
Qed.

(** C6. [calculateSafeWithdrawal] returns [Math.round] of the value times
    the withdrawal rate, 0.04, divided by 12: a whole number at most one
    half away from that quotient, the upper one on a tie.  On 6210 it
    returns 21. *)
Theorem calculateSafeWithdrawal_rounds :
  CONFIG.WITHDRAWAL_RATE == 4 / 100 /\
  (forall v : Q,
      let monthly := v * CONFIG.WITHDRAWAL_RATE / 12 in
      calculateSafeWithdrawal v = JS.Math_round monthly /\
      monthly - 0.5 < inject_Z (calculateSafeWithdrawal v) /\
      inject_Z (calculateSafeWithdrawal v) <= monthly + 0.5) /\
  6210 * CONFIG.WITHDRAWAL_RATE / 12 == 20.7 /\
  calculateSafeWithdrawal 6210 = 21%Z.
Proof.
  split; [reflexivity |]. split; [| split; reflexivity].
  intros v monthly. split; [reflexivity |].
  change (calculateSafeWithdrawal v) with (JS.Math_round monthly).
  clearbody monthly.
  pose proof (Math_round_nearest monthly) as [Hl Hu].
  split; assumption.
Qed.

(** ** Invariants of the portfolio *)

Lemma balance_constant (y : Z) (p : FinancialProfile) :
  investmentReturn p == 0 ->
  monthlyInvestment p == 0 ->
  windfallAmount p == 0 ->
  forall k : nat, balance y p k == currentSavings p.
Proof.
  intros Hi Hm Hw k. induction k as [| k IH]; [reflexivity |].
  cbn [balance]. unfold nextPortfolio.
  destruct (applies y p (y + Z.of_nat k)); rewrite IH, Hi, Hm, ?Hw; field.
Qed.

(** C8. With a zero return, no monthly investment and no windfall the
    portfolio of every entry of the projection is the current savings. *)
Theorem project_portfolio_constant (y : Z) (p : FinancialProfile) :
  Valid p ->
  investmentReturn p == 0 ->
  monthlyInvestment p == 0 ->
  windfallAmount p == 0 ->
  exists results,
    fst (project y p) = Normal results /\
    forall (k : nat) (r : YearlyResult),
      nth_error results k = Some r -> portfolio r == currentSavings p.
Proof.
  intros Hv Hi Hm Hw. exists (entries y p 0 (turns p)).
  rewrite (project_run y p Hv). split; [reflexivity |].
  intros k r Hr. apply entries_nth in Hr as [_ ->].
  change (portfolio (entry y p (Z.of_nat k) (balance y p k)))
    with (balance y p (S k)).
  now apply balance_constant.
Qed.

Lemma project_portfolio_constant_witness :
  exists results,
    fst (project 2026
           {| currentAge := 47; retirementAge := 67;
              currentSavings := 12345.67; monthlyInvestment := 0;
              investmentReturn := 0; windfallAmount := 0;
              windfallEndYear := 2030; rent := 1200;
              otherExpenses := 800; expenseInflation := 3 |})
    = Normal results /\
    forall (k : nat) (r : YearlyResult),
      nth_error results k = Some r -> portfolio r == 12345.67.
Proof.
  apply (project_portfolio_constant 2026
           {| currentAge := 47; retirementAge := 67;
              currentSavings := 12345.67; monthlyInvestment := 0;
              investmentReturn := 0; windfallAmount := 0;
              windfallEndYear := 2030; rent := 1200;
              otherExpenses := 800; expenseInflation := 3 |});
    try reflexivity.
  valid_by_computation.
Defined.

Lemma for_loop_appends (y n : Z) (p : FinancialProfile) (count : nat) :
  forall (k : Z) (v : Q),
    Z.of_nat count = Z.max 0 (n + 1 - k) ->
    exists pushed : list YearlyResult,
      forall rs : list YearlyResult,
        for_loop y n k v rs p = (Normal (rs ++ pushed), p).
Proof.
  induction count as [| count IH]; intros k v Hc.
  - exists []. intros rs.
    rewrite for_loop_exit by lia. now rewrite app_nil_r.
  - destruct (IH (k + 1)%Z (nextPortfolio y p k v)) as [pushed Hp]; [lia |].
    exists (entry y p k v :: pushed). intros rs.
    rewrite for_loop_enter by lia. rewrite Hp. now rewrite <- app_assoc.
Qed.

(** C9. [validate], [hasWindfallInYear], one turn of the loop, the loop
    and [project] leave the profile they are run on as it was, whether
    they return or throw: every field keeps its value.  A turn of the
    loop is a function of the counter and of the running portfolio, and
    the loop appends to the results it is entered with entries that do
    not depend on them. *)
Theorem profile_unchanged (y : Z) (p : FinancialProfile) :
  snd (validate p) = p /\
  (forall t : Z, snd (hasWindfallInYear y t p) = p) /\
  (forall (k : Z) (v : Q), snd (iteration y k v p) = p) /\
  (forall (n k : Z) (v : Q),
      exists pushed : list YearlyResult,
        forall rs : list YearlyResult,
          for_loop y n k v rs p = (Normal (rs ++ pushed), p)) /\
  snd (project y p) = p.
Proof.
  assert (Hval : snd (validate p) = p).
  { destruct (Valid_cases p) as [Hv | [Ha | [[Ha Hi] | (Ha & Hi & Hw)]]].
    - now rewrite validate_ok.
    - now rewrite validate_timeline.
    - now rewrite validate_rate.
    - now rewrite validate_windfall. }
  assert (Hloop : forall n k v,
             exists pushed, forall rs,
                 for_loop y n k v rs p = (Normal (rs ++ pushed), p)).
  { intros n k v.
    apply (for_loop_appends y n p (Z.to_nat (n + 1 - k))). lia. }
  split; [exact Hval |].
  split; [reflexivity |].
  split; [intros k v; now rewrite iteration_run |].
  split; [exact Hloop |].
  unfold project, bind at 1.
  destruct (validate p) as [[b | e] p'] eqn:E; cbn in Hval; subst p'.
  - unfold bind, get.
    destruct (Hloop (retirementAge p - currentAge p)%Z 0%Z (currentSavings p))
      as [pushed Hp].
    now rewrite Hp.
  - reflexivity.
Qed.

Lemma nextPortfolio_grows (y : Z) (p : FinancialProfile) (k : Z) (v : Q) :
  0 <= investmentReturn p ->
  0 <= monthlyInvestment p ->
  0 <= windfallAmount p ->
  0 <= v ->
  v <= nextPortfolio y p k v.
Proof.
  intros Hi Hm Hw Hv. unfold nextPortfolio.
  assert (H : 0 <= v * investmentReturn p) by now apply Qmult_le_0_compat.
  assert (E : v * (1 + investmentReturn p / 100)
              == v + (v * investmentReturn p) * (1 # 100)) by field.
  set (gain := v * investmentReturn p) in *.
  destruct (applies y p (y + k)); rewrite E; lra.
Qed.

Lemma balance_grows (y : Z) (p : FinancialProfile) :
  0 <= investmentReturn p ->
  0 <= monthlyInvestment p ->
  0 <= windfallAmount p ->
  0 <= currentSavings p ->
  forall k : nat,
    currentSavings p <= balance y p k /\ balance y p k <= balance y p (S k).
Proof.
  intros Hi Hm Hw Hs k. induction k as [| k [IH1 IH2]].
  - split; [apply Qle_refl |].
    cbn [balance]. now apply nextPortfolio_grows.
  - split; [now apply Qle_trans with (balance y p k) |].
    change (balance y p (S (S k)))
      with (nextPortfolio y p (Z.of_nat (S k)) (balance y p (S k))).
    apply nextPortfolio_grows; try assumption.
    apply Qle_trans with (currentSavings p); [assumption |].
    now apply Qle_trans with (balance y p k).
Qed.

Lemma balance_monotone (y : Z) (p : FinancialProfile) :
  0 <= investmentReturn p ->
  0 <= monthlyInvestment p ->
  0 <= windfallAmount p ->
  0 <= currentSavings p ->
  forall j k : nat, (j <= k)%nat -> balance y p j <= balance y p k.
Proof.
  intros Hi Hm Hw Hs j k Hjk. induction Hjk as [| k Hjk IH].
  - apply Qle_refl.
  - apply Qle_trans with (balance y p k); [exact IH |].
    now apply balance_grows.
Qed.

(** C10. On a valid profile with non-negative savings and monthly
    investment and a non-negative windfall (validation gives the
    non-negative return) the portfolios of the projection never decrease from one offset to a
    later one, and none is below the current savings. *)
Theorem project_portfolio_monotone (y : Z) (p : FinancialProfile) :
  Valid p ->
  0 <= currentSavings p ->
  0 <= monthlyInvestment p ->
  0 <= windfallAmount p ->
  exists results,
    fst (project y p) = Normal results /\
    (forall (j k : nat) (rj rk : YearlyResult),
        (j <= k)%nat ->
        nth_error results j = Some rj ->
        nth_error results k = Some rk ->
        portfolio rj <= portfolio rk) /\
    (forall (k : nat) (r : YearlyResult),
        nth_error results k = Some r -> currentSavings p <= portfolio r).
Proof.
  intros Hv Hs Hm Hw. exists (entries y p 0 (turns p)).
  rewrite (project_run y p Hv). split; [reflexivity |].
  destruct Hv as (_ & [Hi _] & _).
  split.
  - intros j k rj rk Hjk Hj Hk.
    apply entries_nth in Hj as [_ ->]. apply entries_nth in Hk as [_ ->].
    change (balance y p (S j) <= balance y p (S k)).
    apply balance_monotone; try assumption. lia.
  - intros k r Hr. apply entries_nth in Hr as [_ ->].
    change (currentSavings p <= balance y p (S k)).
    now apply balance_grows.
Qed.

Lemma project_portfolio_monotone_witness :
  exists results,
    fst (project 2026 CONFIG.DEFAULT_PROFILE) = Normal results /\
    (forall (j k : nat) (rj rk : YearlyResult),
        (j <= k)%nat ->
        nth_error results j = Some rj ->
        nth_error results k = Some rk ->
        portfolio rj <= portfolio rk) /\
    (forall (k : nat) (r : YearlyResult),
        nth_error results k = Some r -> 0 <= portfolio r).
Proof.
  apply (project_portfolio_monotone 2026 CONFIG.DEFAULT_PROFILE);
    try discriminate.
  valid_by_computation.
Defined.

(** ** Currency formatting *)

Example toFixed_tie : JS.toFixed 0 2.5 = "3"%string.
Proof. reflexivity. Qed.

Example toFixed_pads : JS.toFixed 3 12 = "12.000"%string.
Proof. reflexivity. Qed.

Example toFixed_small_negative : JS.toFixed 2 (-0.001) = "-0.00"%string.
Proof. reflexivity. Qed.

Example toLocaleString_groups :
  JS.toLocaleString 1234567 = "1,234,567"%string /\
  JS.toLocaleString (-123456) = "-123,456"%string /\
  JS.toLocaleString 100 = "100"%string.
Proof. repeat split. Qed.

Lemma length_append (s t : string) :
  String.length (s ++ t) = (String.length s + String.length t)%nat.
Proof.
  induction s as [| c s IH]; cbn; [reflexivity | now rewrite IH].
Qed.

Lemma length_zeros (n : nat) : String.length (JS.zeros n) = n.
Proof.
  induction n as [| n IH]; cbn; [reflexivity | now rewrite IH].
Qed.

Lemma length_substring (s : string) :
  forall n m : nat,
    (n + m <= String.length s)%nat -> String.length (substring n m s) = m.
Proof.
  induction s as [| c s IH]; intros n m H; cbn in H.
  - assert (n = 0%nat /\ m = 0%nat) as [-> ->] by lia. reflexivity.
  - destruct n as [| n]; cbn.
    + destruct m as [| m]; cbn; [reflexivity |].
      rewrite (IH 0%nat m); [reflexivity | cbn; lia].
    + apply IH. lia.
Qed.

(** With a positive number of fraction digits [toFixed] prints an
    optional minus sign, at least one digit, the point, and exactly the
    requested number of digits. *)
Lemma toFixed_decimals (f : nat) (x : Q) :
  f <> 0%nat ->
  exists s a b : string,
    JS.toFixed f x = (s ++ a ++ "." ++ b)%string /\
    (s = EmptyString \/ s = "-"%string) /\
    (1 <= String.length a)%nat /\
    String.length b = f.
Proof.
  intros Hf. unfold JS.toFixed.
  destruct (Nat.eqb_spec f 0) as [E | _]; [contradiction |].
  set (m := JS.digits _).
  set (m' := if Nat.leb (String.length m) f
             then (JS.zeros (f + 1 - String.length m) ++ m)%string
             else m).
  assert (Hlen : (f + 1 <= String.length m')%nat).
  { unfold m'. destruct (Nat.leb_spec (String.length m) f) as [H | H].
    - rewrite length_append, length_zeros. lia.
    - lia. }
  eexists _, _, _. split; [reflexivity |]. split.
  - destruct (JS.lt x 0); [now right | now left].
  - split; rewrite length_substring; lia.
Qed.

Lemma round_toLocaleString_nonneg (v : Q) :
  0 <= v -> JS.round_toLocaleString v = JS.toLocaleString (JS.Math_round v).
Proof.
  intros H. unfold JS.round_toLocaleString.
  apply lt_false in H. now rewrite H.
Qed.

(** C7, as stated, fails at 9500: the amount is below the threshold of
    the thousands form and is printed in full. *)
Lemma formatCurrency_9500 :
  formatCurrency 9500 = "$9,500"%string /\
  formatCurrency 9500 <> "$9.5k"%string.
Proof. split; [reflexivity | discriminate]. Qed.

(** C7, amended.  Below [10^30], where [toFixed] keeps its fixed
    notation: from 1e9 on [formatCurrency] prints the amount divided by
    1e9 with two decimals and a B, from 1e6 on the amount divided by 1e6
    with two decimals and an M, from 1e4 on the amount divided by 1e3 with
    one decimal and a k, and below 1e4 the amount rounded to the nearest
    integer with commas between groups of three digits.  So 12345678
    gives "$12.35M", 9500 gives "$9,500" and 950 gives "$950". *)
Theorem formatCurrency_forms :
  (forall v : Q,
      1000000000 <= v -> v < inject_Z (10 ^ 30) ->
      formatCurrency v
      = ("$" ++ JS.toFixed 2 (v / 1000000000) ++ "B")%string) /\
  (forall v : Q,
      1000000 <= v -> v < 1000000000 ->
      formatCurrency v = ("$" ++ JS.toFixed 2 (v / 1000000) ++ "M")%string) /\
  (forall v : Q,
      10000 <= v -> v < 1000000 ->
      formatCurrency v = ("$" ++ JS.toFixed 1 (v / 1000) ++ "k")%string) /\
  (forall v : Q,
      v < 10000 ->
      formatCurrency v = ("$" ++ JS.round_toLocaleString v)%string) /\
  (forall v : Q,
      0 <= v -> v < 10000 ->
      formatCurrency v
      = ("$" ++ JS.toLocaleString (JS.Math_round v))%string) /\
  formatCurrency 12345678 = "$12.35M"%string /\
  formatCurrency 9500 = "$9,500"%string /\
  formatCurrency 950 = "$950"%string.
Proof.
  assert (Hlow : forall v : Q,
             v < 10000 ->
             formatCurrency v = ("$" ++ JS.round_toLocaleString v)%string).
  { intros v H. unfold formatCurrency.
    assert (H6 : v < 1000000) by lra.
    assert (H9 : v < 1000000000) by lra.
    apply ge_false in H, H6, H9. now rewrite H9, H6, H. }
  repeat split; try exact Hlow.
  - intros v H _. unfold formatCurrency.
    apply ge_true in H. now rewrite H.
  - intros v H Hlt. unfold formatCurrency.
    apply ge_true in H. apply ge_false in Hlt. now rewrite Hlt, H.
  - intros v H Hlt. unfold formatCurrency.
    assert (H9 : v < 1000000000) by lra.
    apply ge_true in H. apply ge_false in Hlt, H9. now rewrite H9, Hlt, H.
  - intros v H0 H. rewrite (Hlow v H). now rewrite round_toLocaleString_nonneg.
Qed.

Lemma formatCurrency_forms_witness :
  formatCurrency 2500000000 = "$2.50B"%string /\
  formatCurrency 999999 = "$1000.0k"%string /\
  formatCurrency (-1234.5) = "$-1,234"%string.
Proof.
  split; [| split].
  - rewrite (proj1 formatCurrency_forms 2500000000);
      [reflexivity | discriminate | reflexivity].
  - rewrite (proj1 (proj2 (proj2 formatCurrency_forms)) 999999);
      [reflexivity | discriminate | reflexivity].
  - rewrite (proj1 (proj2 (proj2 (proj2 formatCurrency_forms))) (-1234.5));
      reflexivity.
Defined.

(** * Further properties of the engine *)

(** ** Windfall years *)

(** X1. In the projection of a valid profile the years in which the
    windfall is received come first: if the entry at an offset received
    it, so did every entry before.  The last entry, at the retirement
    age, never receives it. *)
Theorem windfall_years_first (y : Z) (p : FinancialProfile) :
  Valid p ->
  exists results,
    fst (project y p) = Normal results /\
    (forall (j k : nat) (rj rk : YearlyResult),
        (j <= k)%nat ->
        nth_error results j = Some rj ->
        nth_error results k = Some rk ->
        receivedWindfall rk = true -> receivedWindfall rj = true) /\
    (forall r : YearlyResult,
        nth_error results (List.length results - 1) = Some r ->
        receivedWindfall r = false).
Proof.
  intros Hv. exists (entries y p 0 (turns p)).
  rewrite (project_run y p Hv). split; [reflexivity |].
  rewrite entries_length. destruct Hv as (Ha & _). split.
  - intros j k rj rk Hjk Hj Hk.
    apply entries_nth in Hj as [_ ->]. apply entries_nth in Hk as [_ ->].
    cbn [receivedWindfall entry]. rewrite !applies_iff.
    unfold WindfallApplies. intros (H1 & H2 & H3). repeat split; try lia.
    exact H3.
  - intros r Hr. apply entries_nth in Hr as [_ ->].
    cbn [receivedWindfall entry]. apply not_true_is_false.
    rewrite applies_iff. unfold WindfallApplies, turns. lia.
Qed.

Lemma windfall_years_first_witness :
  exists results,
    fst (project 2026 CONFIG.DEFAULT_PROFILE) = Normal results /\
    (forall (j k : nat) (rj rk : YearlyResult),
        (j <= k)%nat ->
        nth_error results j = Some rj ->
        nth_error results k = Some rk ->
        receivedWindfall rk = true -> receivedWindfall rj = true) /\
    (forall r : YearlyResult,
        nth_error results (List.length results - 1) = Some r ->
        receivedWindfall r = false).
Proof.
  apply (windfall_years_first 2026 CONFIG.DEFAULT_PROFILE).
  valid_by_computation.
Defined.

(** ** What the fields reach *)

(** The fields [validate] reads. *)
Lemma validate_reads (p q : FinancialProfile) :
  currentAge q = currentAge p ->
  retirementAge q = retirementAge p ->
  investmentReturn q = investmentReturn p ->
  windfallAmount q = windfallAmount p ->
  Valid p -> Valid q.
Proof.
  unfold Valid. intros -> -> -> ->. tauto.
Qed.

(** X2. [validate] looks at the two ages, the return and the windfall
    amount only: two profiles that agree on these four fields are both
    accepted or both rejected with the same error, whatever their
    savings, monthly investment, expenses, inflation and end year. *)
Theorem validate_four_fields (p q : FinancialProfile) :
  currentAge q = currentAge p ->
  retirementAge q = retirementAge p ->
  investmentReturn q = investmentReturn p ->
  windfallAmount q = windfallAmount p ->
  fst (validate q) = fst (validate p).
Proof.
  intros Ea Er Ei Ew.
  destruct (Valid_cases p) as [Hv | [Ha | [[Ha Hi] | (Ha & Hi & Hw)]]].
  - rewrite (validate_ok p Hv).
    now rewrite (validate_ok q (validate_reads p q Ea Er Ei Ew Hv)).
  - rewrite (validate_timeline p Ha).
    rewrite <- Ea, <- Er in Ha. now rewrite (validate_timeline q Ha).
  - rewrite (validate_rate p Ha Hi).
    rewrite <- Ea, <- Er in Ha. rewrite <- Ei in Hi.
    now rewrite (validate_rate q Ha Hi).
  - rewrite (validate_windfall p Ha Hi Hw).
    rewrite <- Ea, <- Er in Ha. rewrite <- Ei in Hi. rewrite <- Ew in Hw.
    now rewrite (validate_windfall q Ha Hi Hw).
Qed.

Lemma validate_four_fields_witness :
  fst (validate (set_monthlyInvestment (-250) CONFIG.DEFAULT_PROFILE))
  = fst (validate CONFIG.DEFAULT_PROFILE).
Proof.
  apply (validate_four_fields CONFIG.DEFAULT_PROFILE
           (set_monthlyInvestment (-250) CONFIG.DEFAULT_PROFILE));
    reflexivity.
Defined.

Lemma applies_reads (y : Z) (p q : FinancialProfile) (t : Z) :
  currentAge q = currentAge p ->
  retirementAge q = retirementAge p ->
  windfallAmount q = windfallAmount p ->
  windfallEndYear q = windfallEndYear p ->
  applies y q t = applies y p t.
Proof.
  unfold applies. now intros -> -> -> ->.
Qed.

Lemma balance_reads (y : Z) (p q : FinancialProfile) :
  currentAge q = currentAge p ->
  retirementAge q = retirementAge p ->
  currentSavings q = currentSavings p ->
  monthlyInvestment q = monthlyInvestment p ->
  investmentReturn q = investmentReturn p ->
  windfallAmount q = windfallAmount p ->
  windfallEndYear q = windfallEndYear p ->
  forall k : nat, balance y q k = balance y p k.
Proof.
  intros Ea Er Es Em Ei Ew Ee k. induction k as [| k IH]; [exact Es |].
  cbn [balance]. unfold nextPortfolio.
  now rewrite IH, Em, Ei, Ew, (applies_reads y p q _ Ea Er Ew Ee).
Qed.

(** X3. Expenses are reported beside the portfolio and never taken out
    of it: whatever rent, other expenses and inflation are put in place
    of a valid profile's, the projection has the same years, ages,
    portfolios and windfall flags. *)
Theorem expenses_leave_portfolio (y : Z) (p : FinancialProfile)
    (newRent newOther newInflation : Q) :
  Valid p ->
  let q :=
    set_rent newRent
      (set_otherExpenses newOther (set_expenseInflation newInflation p)) in
  exists results results',
    fst (project y p) = Normal results /\
    fst (project y q) = Normal results' /\
    map year results' = map year results /\
    map age results' = map age results /\
    map portfolio results' = map portfolio results /\
    map receivedWindfall results' = map receivedWindfall results.
Proof.
  intros Hv q.
  assert (Hq : Valid q) by exact Hv.
  exists (entries y p 0 (turns p)), (entries y q 0 (turns q)).
  rewrite (project_run y p Hv), (project_run y q Hq).
  split; [reflexivity |]. split; [reflexivity |].
  change (turns q) with (turns p). unfold entries. rewrite !map_map.
  repeat split; apply map_ext; intros k; cbn [year age portfolio
    receivedWindfall entry]; try reflexivity.
  unfold nextPortfolio.
  now rewrite (balance_reads y p q) by reflexivity.
Qed.

Lemma expenses_leave_portfolio_witness :
  exists results results',
    fst (project 2026 CONFIG.DEFAULT_PROFILE) = Normal results /\
    fst (project 2026
           (set_rent 5000
              (set_otherExpenses 0
                 (set_expenseInflation 12 CONFIG.DEFAULT_PROFILE))))
    = Normal results' /\
    map year results' = map year results /\
    map age results' = map age results /\
    map portfolio results' = map portfolio results /\
    map receivedWindfall results' = map receivedWindfall results.
Proof.
  apply (expenses_leave_portfolio 2026 CONFIG.DEFAULT_PROFILE 5000 0 12).
  valid_by_computation.
Defined.

(** ** Rounding *)

Lemma Qfloor_unique (x : Q) (n : Z) :
  inject_Z n <= x -> x < inject_Z (n + 1) -> Qfloor x = n.
Proof.
  intros Hl Hu. apply Z.le_antisymm.
  - apply Z.lt_succ_r. rewrite Zlt_Qlt.
    apply Qle_lt_trans with x; [apply Qfloor_le | exact Hu].
  - rewrite <- (Qfloor_Z n). now apply Qfloor_resp_le.
Qed.

Lemma monthly_scaled (v : Q) :
  v * CONFIG.WITHDRAWAL_RATE / 12 == v * (1 # 300).
Proof. unfold CONFIG.WITHDRAWAL_RATE. field. Qed.

(** X4. The safe withdrawal never decreases when the portfolio grows, is
    not negative on a non-negative portfolio, and is zero on every
    portfolio from 0 up to 150, excluded. *)
Theorem calculateSafeWithdrawal_monotone :
  (forall v w : Q,
      v <= w -> (calculateSafeWithdrawal v <= calculateSafeWithdrawal w)%Z) /\
  (forall v : Q, 0 <= v -> (0 <= calculateSafeWithdrawal v)%Z) /\
  (forall v : Q, 0 <= v -> v < 150 -> calculateSafeWithdrawal v = 0%Z).
Proof.
  assert (Hmono : forall v w : Q,
             v <= w ->
             (calculateSafeWithdrawal v <= calculateSafeWithdrawal w)%Z).
  { intros v w H. unfold calculateSafeWithdrawal, JS.Math_round.
    apply Qfloor_resp_le. rewrite !monthly_scaled. lra. }
  assert (Hzero : forall v : Q,
             0 <= v -> v < 150 -> calculateSafeWithdrawal v = 0%Z).
  { intros v H0 H150. unfold calculateSafeWithdrawal, JS.Math_round.
    apply Qfloor_unique; rewrite monthly_scaled.
    - change (inject_Z 0) with 0. lra.
    - change (inject_Z (0 + 1)) with 1. lra. }
  split; [exact Hmono |]. split; [| exact Hzero].
  intros v H0. rewrite <- (Hzero 0) by lra. now apply Hmono.
Qed.

Lemma calculateSafeWithdrawal_monotone_witness :
  (calculateSafeWithdrawal 6210 <= calculateSafeWithdrawal 250000)%Z /\
  (0 <= calculateSafeWithdrawal 6210)%Z /\
  calculateSafeWithdrawal 149.99 = 0%Z.
Proof.
  split; [| split].
  - apply (proj1 calculateSafeWithdrawal_monotone). discriminate.
  - apply (proj1 (proj2 calculateSafeWithdrawal_monotone)). discriminate.
  - apply (proj2 (proj2 calculateSafeWithdrawal_monotone));
      [discriminate | reflexivity].
Defined.

Lemma toFixed_of_rounded (f : nat) (x : Q) (n : Z) :
  0 <= x ->
  inject_Z n <= x * inject_Z (10 ^ Z.of_nat f) + 0.5 ->
  x * inject_Z (10 ^ Z.of_nat f) + 0.5 < inject_Z (n + 1) ->
  JS.toFixed f x = JS.toFixed f (inject_Z n / inject_Z (10 ^ Z.of_nat f)).
Proof.
  intros H0 Hl Hu. unfold JS.toFixed.
  assert (Hp : 0 < inject_Z (10 ^ Z.of_nat f)).
  { change 0 with (inject_Z 0). rewrite <- Zlt_Qlt.
    apply Z.pow_pos_nonneg; lia. }
  assert (Hn : (0 <= n)%Z).
  { apply Z.lt_succ_r. rewrite Zlt_Qlt.
    apply Qle_lt_trans with (x * inject_Z (10 ^ Z.of_nat f) + 0.5);
      [| exact Hu].
    assert (0 <= x * inject_Z (10 ^ Z.of_nat f))
      by (apply Qmult_le_0_compat; [exact H0 | now apply Qlt_le_weak]).
    change (inject_Z 0) with 0. lra. }
  set (x' := inject_Z n / inject_Z (10 ^ Z.of_nat f)).
  assert (H0' : 0 <= x').
  { unfold x'. apply Qle_shift_div_l; [exact Hp |].
    rewrite Qmult_0_l. change 0 with (inject_Z 0). now rewrite <- Zle_Qle. }
  apply lt_false in H0, H0'. rewrite H0, H0'.
  rewrite (Qfloor_unique _ n Hl Hu).
  assert (E : x' * inject_Z (10 ^ Z.of_nat f) == inject_Z n).
  { unfold x'. field. intros C. rewrite C in Hp. now apply Qlt_irrefl in Hp. }
  rewrite (Qfloor_unique (x' * inject_Z (10 ^ Z.of_nat f) + 0.5) n).
  - reflexivity.
  - rewrite E. lra.
  - rewrite E, inject_Z_plus. change (inject_Z 1) with 1. lra.
Qed.

(** X5. Just below a unit threshold the rounding of [toFixed] carries
    into a fourth digit and the smaller unit is kept: every amount from
    999950 up to one million, excluded, prints as "$1000.0k", and every
    amount from 999995000 up to a thousand millions, excluded, prints as
    "$1000.00M". *)
Theorem formatCurrency_carry :
  (forall v : Q,
      999950 <= v -> v < 1000000 -> formatCurrency v = "$1000.0k"%string) /\
  (forall v : Q,
      999995000 <= v -> v < 1000000000 ->
      formatCurrency v = "$1000.00M"%string).
Proof.
  split; intros v Hl Hu; unfold formatCurrency.
  - assert (H9 : v < 1000000000) by lra.
    assert (H4 : 10000 <= v) by lra.
    apply ge_false in H9. apply ge_false in Hu. apply ge_true in H4.
    rewrite H9, Hu, H4.
    rewrite (toFixed_of_rounded 1 (v / 1000) 10000); [reflexivity | | |].
    + apply Qle_shift_div_l; lra.
    + setoid_replace (v / 1000) with (v * (1 # 1000)) by field.
      apply ge_true in H4. cbn; unfold inject_Z; lra.
    + setoid_replace (v / 1000) with (v * (1 # 1000)) by field.
      apply ge_false in Hu. cbn; unfold inject_Z; lra.
  - assert (H6 : 1000000 <= v) by lra.
    apply ge_false in Hu. apply ge_true in H6. rewrite Hu, H6.
    rewrite (toFixed_of_rounded 2 (v / 1000000) 100000); [reflexivity | | |].
    + apply Qle_shift_div_l; lra.
    + setoid_replace (v / 1000000) with (v * (1 # 1000000)) by field.
      cbn; unfold inject_Z; lra.
    + setoid_replace (v / 1000000) with (v * (1 # 1000000)) by field.
      apply ge_false in Hu. cbn; unfold inject_Z; lra.
Qed.

Lemma formatCurrency_carry_witness :
  formatCurrency 999950 = "$1000.0k"%string /\
  formatCurrency 999999999 = "$1000.00M"%string.
Proof.
  split.
  - apply (proj1 formatCurrency_carry); [discriminate | reflexivity].
  - apply (proj2 formatCurrency_carry); [discriminate | reflexivity].
Defined.

(** ** Growth *)

Lemma Qpower_succ (g : Q) (k : nat) :
  g ^ Z.of_nat (S k) == g ^ Z.of_nat k * g.
Proof.
  rewrite Nat2Z.inj_succ. unfold Z.succ.
  rewrite Qpower_plus' by lia. now rewrite Qpower_1_r.
Qed.

Lemma nextPortfolio_no_windfall (y : Z) (p : FinancialProfile) (k : Z)
    (v : Q) :
  windfallAmount p == 0 ->
  nextPortfolio y p k v =
  v * (1 + investmentReturn p / 100) + monthlyInvestment p * 12.
Proof.
  intros Hw. apply nextPortfolio_skips. intros (_ & _ & H).
  rewrite Hw in H. now apply Qlt_irrefl in H.
Qed.

Lemma balance_compound (y : Z) (p : FinancialProfile) :
  windfallAmount p == 0 ->
  0 < investmentReturn p ->
  forall k : nat,
    balance y p k ==
    currentSavings p * (1 + investmentReturn p / 100) ^ Z.of_nat k
    + monthlyInvestment p * 12
      * ((1 + investmentReturn p / 100) ^ Z.of_nat k - 1)
      / (investmentReturn p / 100).
Proof.
  intros Hw Hi k.
  assert (Hne : ~ investmentReturn p == 0).
  { intros C. rewrite C in Hi. now apply Qlt_irrefl in Hi. }
  induction k as [| k IH].
  - cbn [balance Z.of_nat]. rewrite Qpower_0_r. now field.
  - cbn [balance]. rewrite (nextPortfolio_no_windfall y p _ _ Hw).
    rewrite IH, Qpower_succ. now field.
Qed.

Lemma balance_linear (y : Z) (p : FinancialProfile) :
  windfallAmount p == 0 ->
  investmentReturn p == 0 ->
  forall k : nat,
    balance y p k ==
    currentSavings p + monthlyInvestment p * 12 * inject_Z (Z.of_nat k).
Proof.
  intros Hw Hi k. induction k as [| k IH].
  - cbn [balance Z.of_nat]. change (inject_Z 0) with 0. ring.
  - cbn [balance]. rewrite (nextPortfolio_no_windfall y p _ _ Hw).
    rewrite IH, Hi, Nat2Z.inj_succ. unfold Z.succ.
    rewrite inject_Z_plus. change (inject_Z 1) with 1. field.
Qed.

(** X6. Without a windfall the portfolio follows the future-value
    formula, the year at offset 0 already earning a full year.  The
    projection of a valid profile has [retirementAge - currentAge + 1]
    entries, and at every offset [k] from 0 to
    [retirementAge - currentAge] it has an entry whose portfolio, with
    [g = 1 + investmentReturn/100], is [currentSavings * g^(k+1)] plus
    [12 * monthlyInvestment * (g^(k+1) - 1) / (investmentReturn/100)]
    when the return is positive, and
    [currentSavings + 12 * monthlyInvestment * (k+1)] when it is zero. *)
Theorem portfolio_future_value (y : Z) (p : FinancialProfile) :
  Valid p ->
  windfallAmount p == 0 ->
  exists results,
    fst (project y p) = Normal results /\
    Z.of_nat (List.length results) = (retirementAge p - currentAge p + 1)%Z /\
    forall k : nat,
      (Z.of_nat k <= retirementAge p - currentAge p)%Z ->
      exists r : YearlyResult,
        nth_error results k = Some r /\
        (0 < investmentReturn p ->
         portfolio r ==
         currentSavings p * (1 + investmentReturn p / 100) ^ Z.of_nat (S k)
         + monthlyInvestment p * 12
           * ((1 + investmentReturn p / 100) ^ Z.of_nat (S k) - 1)
           / (investmentReturn p / 100)) /\
        (investmentReturn p == 0 ->
         portfolio r ==
         currentSavings p
         + monthlyInvestment p * 12 * inject_Z (Z.of_nat (S k))).
Proof.
  intros Hv Hw. exists (entries y p 0 (turns p)).
  rewrite (project_run y p Hv). split; [reflexivity |].
  rewrite entries_length. destruct Hv as (Ha & _).
  split; [unfold turns; lia |].
  intros k Hk. exists (entry y p (Z.of_nat k) (balance y p k)).
  split; [apply entries_at; unfold turns; lia |].
  change (portfolio (entry y p (Z.of_nat k) (balance y p k)))
    with (balance y p (S k)).
  split; intros Hi.
  - now apply balance_compound.
  - now apply balance_linear.
Qed.

Lemma portfolio_future_value_witness :
  exists results,
    fst (project 2026 (exampleProfile 2030 3)) = Normal results /\
    Z.of_nat (List.length results) = 2%Z /\
    forall k : nat,
      (Z.of_nat k <= 1)%Z ->
      exists r : YearlyResult,
        nth_error results k = Some r /\
        (0 < 7 ->
         portfolio r ==
         0 * (1 + 7 / 100) ^ Z.of_nat (S k)
         + 250 * 12 * ((1 + 7 / 100) ^ Z.of_nat (S k) - 1) / (7 / 100)) /\
        (7 == 0 ->
         portfolio r == 0 + 250 * 12 * inject_Z (Z.of_nat (S k))).
Proof.
  apply (portfolio_future_value 2026 (exampleProfile 2030 3));
    [valid_by_computation | reflexivity].
Defined.

Lemma factor_grows (e : Q) (j k : nat) :
  0 <= e -> (j <= k)%nat ->
  0 <= (1 + e / 100) ^ Z.of_nat j /\
  (1 + e / 100) ^ Z.of_nat j <= (1 + e / 100) ^ Z.of_nat k.
Proof.
  intros He Hjk.
  assert (H1 : 1 <= 1 + e / 100).
  { setoid_replace (e / 100) with (e * (1 # 100)) by field. lra. }
  split.
  - apply Qpower_0_le. lra.
  - apply Qpower_le_compat_l; [lia | exact H1].
Qed.

(** X7. With non-negative inflation, rent and other expenses, the
    inflated rent, the inflated other expenses and their total never
    decrease from one offset of the projection to a later one. *)
Theorem expenses_never_decrease (y : Z) (p : FinancialProfile) :
  Valid p ->
  0 <= expenseInflation p ->
  0 <= rent p ->
  0 <= otherExpenses p ->
  exists results,
    fst (project y p) = Normal results /\
    forall (j k : nat) (rj rk : YearlyResult),
      (j <= k)%nat ->
      nth_error results j = Some rj ->
      nth_error results k = Some rk ->
      futureRent rj <= futureRent rk /\
      futureOther rj <= futureOther rk /\
      totalMonthlyExpenses rj <= totalMonthlyExpenses rk.
Proof.
  intros Hv He Hr Ho. exists (entries y p 0 (turns p)).
  rewrite (project_run y p Hv). split; [reflexivity |].
  intros j k rj rk Hjk Hj Hk.
  apply entries_nth in Hj as [_ ->]. apply entries_nth in Hk as [_ ->].
  cbn [futureRent futureOther totalMonthlyExpenses entry].
  unfold JS.Math_pow.
  destruct (factor_grows (expenseInflation p) j k He Hjk) as [H0 Hle].
  set (a := (1 + expenseInflation p / 100) ^ Z.of_nat j) in *.
  set (b := (1 + expenseInflation p / 100) ^ Z.of_nat k) in *.
  assert (H1 : rent p * a <= rent p * b) by nra.
  assert (H2 : otherExpenses p * a <= otherExpenses p * b) by nra.
  repeat split; try assumption. lra.
Qed.

Lemma expenses_never_decrease_witness :
  exists results,
    fst (project 2026 CONFIG.DEFAULT_PROFILE) = Normal results /\
    forall (j k : nat) (rj rk : YearlyResult),
      (j <= k)%nat ->
      nth_error results j = Some rj ->
      nth_error results k = Some rk ->
      futureRent rj <= futureRent rk /\
      futureOther rj <= futureOther rk /\
      totalMonthlyExpenses rj <= totalMonthlyExpenses rk.
Proof.
  apply (expenses_never_decrease 2026 CONFIG.DEFAULT_PROFILE);
    [valid_by_computation | discriminate ..].
Defined.

(** * Properties of the page *)

Lemma project_cases (y : Z) (p : FinancialProfile) :
  (Valid p /\ project y p = (Normal (entries y p 0 (turns p)), p)) \/
  (exists e : Error,
      fst (validate p) = Throw e /\ project y p = (Throw e, p)).
Proof.
  destruct (Valid_cases p) as [Hv | [Ha | [[Ha Hi] | (Ha & Hi & Hw)]]].
  - left. split; [exact Hv | now apply project_run].
  - right. exists InvalidTimeline.
    rewrite (validate_timeline p Ha). split; [reflexivity |].
    apply project_throws, validate_timeline, Ha.
  - right. exists InvalidReturnRate.
    rewrite (validate_rate p Ha Hi). split; [reflexivity |].
    now apply project_throws, validate_rate.
  - right. exists InvalidWindfall.
    rewrite (validate_windfall p Ha Hi Hw). split; [reflexivity |].
    now apply project_throws, validate_windfall.
Qed.

Lemma store_at (r : ref) (p : FinancialProfile)
    (h : ref -> FinancialProfile) :
  store r p h r = p.
Proof. unfold store. now rewrite Nat.eqb_refl. Qed.

Lemma store_same (r : ref) (h : ref -> FinancialProfile) (r' : ref) :
  store r (h r) h r' = h r'.
Proof.
  unfold store. destruct (Nat.eqb_spec r' r) as [-> | _]; reflexivity.
Qed.

Lemma entries_last (y : Z) (p : FinancialProfile) :
  (currentAge p < retirementAge p)%Z ->
  nth_error (entries y p 0 (turns p))
            (List.length (entries y p 0 (turns p)) - 1)
  = Some (entry y p (retirementAge p - currentAge p)
                (balance y p (turns p - 1))).
Proof.
  intros Ha. rewrite entries_length. unfold entries.
  rewrite nth_error_map, nth_error_seq.
  assert (Hn : turns p = S (Z.to_nat (retirementAge p - currentAge p))).
  { unfold turns. lia. }
  destruct (Nat.ltb_spec (turns p - 1) (turns p)) as [_ | H]; [| lia].
  cbn [option_map Nat.add]. do 2 f_equal. lia.
Qed.

(** What [calculate] does on a profile [validate] rejects. *)
Lemma calculate_throws (y : Z) (s : State) (e : Error) :
  fst (validate (heap s (app_profile s))) = Throw e ->
  calculate y s =
  {| heap := store (app_profile s) (heap s (app_profile s)) (heap s);
     next := next s; app_profile := app_profile s;
     ui_profile := ui_profile s; ui_chart := ui_chart s;
     inputs := inputs s; summaryCards := summaryCards s;
     alerts := ("Error: " ++ message e)%string :: alerts s;
     console := e :: console s |}.
Proof.
  intros He. unfold calculate.
  destruct (project_cases y (heap s (app_profile s)))
    as [[Hv _] | (e' & He' & Hp)].
  - rewrite (validate_ok _ Hv) in He. discriminate.
  - rewrite Hp. rewrite He' in He. now injection He as ->.
Qed.

(** What [calculate] does on a valid profile. *)
Lemma calculate_returns (y : Z) (s : State) :
  Valid (heap s (app_profile s)) ->
  let p := heap s (app_profile s) in
  let results := entries y p 0 (turns p) in
  let finalResult :=
    entry y p (retirementAge p - currentAge p) (balance y p (turns p - 1)) in
  calculate y s =
  {| heap := store (app_profile s) p (heap s);
     next := next s; app_profile := app_profile s;
     ui_profile := ui_profile s;
     ui_chart :=
       Some {| labels := map age results;
               portfolioData := map portfolio results;
               expensesData :=
                 map (fun d => totalMonthlyExpenses d * 12) results |};
     inputs := inputs s;
     summaryCards :=
       Some {| portfolioCard := formatCurrency (portfolio finalResult);
               atAge := retirementAge p;
               incomeCard := formatSafeWithdrawal (portfolio finalResult);
               expensesCard :=
                 formatCurrency (totalMonthlyExpenses finalResult) |};
     alerts := alerts s; console := console s |}.
Proof.
  intros Hv p results finalResult. unfold calculate. fold p.
  rewrite (project_run y p Hv). unfold updateResults.
  destruct Hv as (Ha & _). fold results.
  unfold results at 1 2. rewrite (entries_last y p Ha).
  unfold _updateChart, with_heap; cbn.
  now rewrite store_at.
Qed.

(** X8. When the profile of the app breaks a rule of [validate],
    [calculate] shows one alert, "Error: " followed by the message of
    the first broken rule, logs the error, and leaves the summary cards,
    the chart, the inputs and every profile as they were. *)
Theorem calculate_invalid_alerts (y : Z) (s : State) (e : Error) :
  fst (validate (heap s (app_profile s))) = Throw e ->
  alerts (calculate y s) = ("Error: " ++ message e)%string :: alerts s /\
  console (calculate y s) = e :: console s /\
  summaryCards (calculate y s) = summaryCards s /\
  ui_chart (calculate y s) = ui_chart s /\
  inputs (calculate y s) = inputs s /\
  (forall r : ref, heap (calculate y s) r = heap s r).
Proof.
  intros He. rewrite (calculate_throws y s e He). cbn.
  repeat split. intros r. apply store_same.
Qed.

Lemma calculate_invalid_alerts_witness :
  alerts (calculate 2026
            (with_heap (fun _ => set_retirementAge 40 CONFIG.DEFAULT_PROFILE)
                       blank))
  = ["Error: Retirement age must be greater than current age"%string].
Proof.
  apply (calculate_invalid_alerts 2026
           (with_heap (fun _ => set_retirementAge 40 CONFIG.DEFAULT_PROFILE)
                      blank)
           InvalidTimeline).
  reflexivity.
Defined.

(** X9. On a valid profile [calculate] shows no alert and fills the
    summary cards from the last entry of the projection, the one at the
    retirement age: its portfolio, the safe withdrawal on that portfolio
    and its total monthly expenses, each through [formatCurrency], and
    the retirement age itself. *)
Theorem calculate_valid_summary (y : Z) (s : State) :
  Valid (heap s (app_profile s)) ->
  exists (results : list YearlyResult) (finalResult : YearlyResult),
    fst (project y (heap s (app_profile s))) = Normal results /\
    nth_error results (List.length results - 1) = Some finalResult /\
    age finalResult = retirementAge (heap s (app_profile s)) /\
    summaryCards (calculate y s) =
    Some {| portfolioCard := formatCurrency (portfolio finalResult);
            atAge := retirementAge (heap s (app_profile s));
            incomeCard := formatSafeWithdrawal (portfolio finalResult);
            expensesCard :=
              formatCurrency (totalMonthlyExpenses finalResult) |} /\
    alerts (calculate y s) = alerts s /\
    console (calculate y s) = console s /\
    (forall r : ref, heap (calculate y s) r = heap s r).
Proof.
  intros Hv. set (p := heap s (app_profile s)) in *.
  exists (entries y p 0 (turns p)),
    (entry y p (retirementAge p - currentAge p) (balance y p (turns p - 1))).
  rewrite (project_run y p Hv), (calculate_returns y s Hv). fold p.
  destruct Hv as (Ha & _).
  split; [reflexivity |]. split; [now apply entries_last |].
  split; [cbn [age entry]; lia |]. cbn.
  repeat split. intros r. apply store_same.
Qed.

Lemma calculate_valid_summary_witness :
  exists (results : list YearlyResult) (finalResult : YearlyResult),
    fst (project 2026 (heap blank (app_profile blank))) = Normal results /\
    nth_error results (List.length results - 1) = Some finalResult /\
    age finalResult = 67%Z /\
    summaryCards (calculate 2026 blank) =
    Some {| portfolioCard := formatCurrency (portfolio finalResult);
            atAge := 67;
            incomeCard := formatSafeWithdrawal (portfolio finalResult);
            expensesCard :=
              formatCurrency (totalMonthlyExpenses finalResult) |} /\
    alerts (calculate 2026 blank) = [] /\
    console (calculate 2026 blank) = [] /\
    (forall r : ref, heap (calculate 2026 blank) r = heap blank r).
Proof.
  apply (calculate_valid_summary 2026 blank). valid_by_computation.
Defined.

(** X10. On a valid profile [calculate] replaces the chart by one with
    a point per projected year, [retirementAge - currentAge + 1] in each
    series: the label at offset [k] carries the age [currentAge + k], the
    portfolio series is the projected portfolios, and the expenses series
    is twelve times the inflated monthly total,
    [(rent + otherExpenses) * (1 + expenseInflation/100)^k * 12]. *)
Theorem calculate_valid_chart (y : Z) (s : State) :
  Valid (heap s (app_profile s)) ->
  let p := heap s (app_profile s) in
  exists (results : list YearlyResult) (chart : Chart),
    fst (project y p) = Normal results /\
    ui_chart (calculate y s) = Some chart /\
    Z.of_nat (List.length (labels chart))
    = (retirementAge p - currentAge p + 1)%Z /\
    List.length (portfolioData chart) = List.length (labels chart) /\
    List.length (expensesData chart) = List.length (labels chart) /\
    portfolioData chart = map portfolio results /\
    (forall (k : nat) (a : Z),
        nth_error (labels chart) k = Some a ->
        a = (currentAge p + Z.of_nat k)%Z) /\
    (forall (k : nat) (x : Q),
        nth_error (expensesData chart) k = Some x ->
        x == (rent p + otherExpenses p)
             * (1 + expenseInflation p / 100) ^ Z.of_nat k * 12).
Proof.
  intros Hv p. subst p. set (p := heap s (app_profile s)) in *.
  exists (entries y p 0 (turns p)).
  eexists. rewrite (project_run y p Hv), (calculate_returns y s Hv).
  fold p. split; [reflexivity |]. split; [reflexivity |].
  cbn [ui_chart labels portfolioData expensesData].
  rewrite !length_map, entries_length.
  destruct Hv as (Ha & _).
  split; [unfold turns; lia |]. repeat split.
  - intros k a H. rewrite nth_error_map in H.
    destruct (nth_error (entries y p 0 (turns p)) k) as [r |] eqn:E;
      [| discriminate].
    apply entries_nth in E as [_ ->]. cbn in H. congruence.
  - intros k x H. rewrite nth_error_map in H.
    destruct (nth_error (entries y p 0 (turns p)) k) as [r |] eqn:E;
      [| discriminate].
    apply entries_nth in E as [_ ->]. cbn in H. injection H as <-.
    unfold JS.Math_pow. ring.
Qed.

Lemma calculate_valid_chart_witness :
  exists (results : list YearlyResult) (chart : Chart),
    fst (project 2026 CONFIG.DEFAULT_PROFILE) = Normal results /\
    ui_chart (calculate 2026 blank) = Some chart /\
    Z.of_nat (List.length (labels chart)) = 21%Z /\
    List.length (portfolioData chart) = List.length (labels chart) /\
    List.length (expensesData chart) = List.length (labels chart) /\
    portfolioData chart = map portfolio results /\
    (forall (k : nat) (a : Z),
        nth_error (labels chart) k = Some a -> a = (47 + Z.of_nat k)%Z) /\
    (forall (k : nat) (x : Q),
        nth_error (expensesData chart) k = Some x ->
        x == (1200 + 800) * (1 + 3 / 100) ^ Z.of_nat k * 12).
Proof.
  apply (calculate_valid_chart 2026 blank). valid_by_computation.
Defined.

(** ** The page across events *)

Lemma DEFAULT_PROFILE_valid : Valid CONFIG.DEFAULT_PROFILE.
Proof. valid_by_computation. Qed.

(** [calculate] keeps the references, the inputs and the profiles. *)
Lemma calculate_keeps (y : Z) (s : State) :
  app_profile (calculate y s) = app_profile s /\
  ui_profile (calculate y s) = ui_profile s /\
  inputs (calculate y s) = inputs s /\
  (forall r : ref, heap (calculate y s) r = heap s r).
Proof.
  destruct (project_cases y (heap s (app_profile s)))
    as [[Hv _] | (e & He & _)].
  - rewrite (calculate_returns y s Hv). cbn.
    repeat split. intros r. apply store_same.
  - rewrite (calculate_throws y s e He). cbn.
    repeat split. intros r. apply store_same.
Qed.

(** The page [calculate] leaves when the profile of the app is the
    default one. *)
Lemma calculate_default (y : Z) (s : State) :
  heap s (app_profile s) = CONFIG.DEFAULT_PROFILE ->
  summaryCards (calculate y s) = summaryCards (calculate y blank) /\
  ui_chart (calculate y s) = ui_chart (calculate y blank) /\
  alerts (calculate y s) = alerts s.
Proof.
  intros H.
  assert (Hv : Valid (heap s (app_profile s)))
    by (rewrite H; exact DEFAULT_PROFILE_valid).
  rewrite (calculate_returns y s Hv).
  rewrite (calculate_returns y blank DEFAULT_PROFILE_valid).
  cbv zeta. cbn [summaryCards ui_chart alerts heap app_profile blank].
  rewrite H. repeat split.
Qed.

Lemma updateFields_savings (doc : Id.Inputs) (p : FinancialProfile) :
  currentSavings (snd (updateFields doc p)) = currentSavings p.
Proof. reflexivity. Qed.

Lemma updateFromInputs_keeps (s : State) :
  app_profile (_updateFromInputs s) = app_profile s /\
  ui_profile (_updateFromInputs s) = ui_profile s /\
  inputs (_updateFromInputs s) = inputs s /\
  summaryCards (_updateFromInputs s) = summaryCards s /\
  ui_chart (_updateFromInputs s) = ui_chart s /\
  alerts (_updateFromInputs s) = alerts s.
Proof.
  unfold _updateFromInputs.
  destruct (ui_profile s) eqn:E; cbn; rewrite ?E; repeat split.
Qed.

Lemma load_showsDefaults (y : Z) :
  exists s : State, load y = Some s /\ showsDefaults y s.
Proof.
  unfold load, initialize, _renderInputs. cbn [ui_profile next blank].
  eexists. split; [reflexivity |].
  match goal with |- showsDefaults _ (calculate _ ?t) => set (s := t) end.
  destruct (calculate_keeps y s) as (Ea & Eu & _ & Eh).
  assert (H0 : heap s 0%nat = CONFIG.DEFAULT_PROFILE) by reflexivity.
  destruct (calculate_default y s H0) as (Es & Ec & El).
  unfold showsDefaults. rewrite Ea, Eu, Eh, Es, Ec, El.
  repeat split.
Qed.

Lemma showsDefaults_step (y : Z) (e : Event) (s : State) :
  isReset e = false ->
  showsDefaults y s ->
  exists s' : State, handle y e s = Some s' /\ showsDefaults y s'.
Proof.
  intros He (Ea & Eu & Eh & Es & Ec & El).
  destruct e as [doc | |]; [| | discriminate]; cbn [handle];
    eexists; (split; [reflexivity |]).
  - unfold showsDefaults, with_inputs.
    cbn [app_profile ui_profile heap summaryCards ui_chart alerts].
    now rewrite Ea, Eu, Eh, Es, Ec, El.
  - unfold recalculate.
    destruct (updateFromInputs_keeps s) as (Ka & Ku & _ & Ks & Kc & Kl).
    assert (H0 : heap (_updateFromInputs s) 0%nat = CONFIG.DEFAULT_PROFILE).
    { unfold _updateFromInputs. rewrite Eu. unfold with_heap, store.
      cbn [heap Nat.eqb]. exact Eh. }
    destruct (calculate_keeps y (_updateFromInputs s)) as (Ca & Cu & _ & Ch).
    assert (H0' : heap (_updateFromInputs s)
                    (app_profile (_updateFromInputs s))
                  = CONFIG.DEFAULT_PROFILE) by (rewrite Ka, Ea; exact H0).
    destruct (calculate_default y _ H0') as (Ds & Dc & Dl).
    unfold showsDefaults.
    rewrite Ca, Cu, Ch, Ds, Dc, Dl, Ka, Ku, Kl, Ea, Eu, H0, El.
    repeat split.
Qed.

Lemma showsDefaults_run (y : Z) (events : list Event) :
  forall s : State,
    forallb (fun e => negb (isReset e)) events = true ->
    showsDefaults y s ->
    exists s' : State, after y (Some s) events = Some s' /\ showsDefaults y s'.
Proof.
  induction events as [| e events IH]; intros s Hn Hs.
  - exists s. split; [reflexivity | exact Hs].
  - cbn in Hn. apply andb_true_iff in Hn as [He Hn].
    apply negb_true_iff in He.
    destruct (showsDefaults_step y e s He Hs) as (s1 & H1 & Hs1).
    cbn [after]. rewrite H1. now apply IH.
Qed.

(** X11. Until the reset button is first clicked, what the user enters
    never reaches the calculation: after the load and any sequence of
    edits and calculate handlers, the profile of the app is still the
    default one, the [ui] updates another object, no alert was shown, and
    the summary cards and the chart are those of the default
    projection, as after the load. *)
Theorem inputs_ignored_before_reset (y : Z) (events : list Event) :
  forallb (fun e => negb (isReset e)) events = true ->
  exists s0 s : State,
    load y = Some s0 /\
    after y (load y) events = Some s /\
    heap s (app_profile s) = CONFIG.DEFAULT_PROFILE /\
    ui_profile s <> Some (app_profile s) /\
    summaryCards s = summaryCards s0 /\
    ui_chart s = ui_chart s0 /\
    alerts s = [].
Proof.
  intros Hn.
  destruct (load_showsDefaults y) as (s0 & Hl & H0).
  destruct (showsDefaults_run y events s0 Hn H0) as (s & Hs & H).
  exists s0, s. rewrite Hl. split; [reflexivity |]. split; [exact Hs |].
  destruct H0 as (_ & _ & _ & Es0 & Ec0 & _).
  destruct H as (Ea & Eu & Eh & Es & Ec & El).
  rewrite Ea, Eu, Eh, Es, Ec, Es0, Ec0, El.
  repeat split. discriminate.
Qed.

Lemma inputs_ignored_before_reset_witness :
  exists s0 s : State,
    load 2026 = Some s0 /\
    after 2026 (load 2026)
      [UserEdits (renderedInputs (set_retirementAge 40 CONFIG.DEFAULT_PROFILE));
       CalculateFires]
    = Some s /\
    heap s (app_profile s) = CONFIG.DEFAULT_PROFILE /\
    ui_profile s <> Some (app_profile s) /\
    summaryCards s = summaryCards s0 /\
    ui_chart s = ui_chart s0 /\
    alerts s = [].
Proof.
  apply (inputs_ignored_before_reset 2026
           [UserEdits
              (renderedInputs (set_retirementAge 40 CONFIG.DEFAULT_PROFILE));
            CalculateFires]).
  reflexivity.
Defined.

Lemma reset_shared (y : Z) (s : State) :
  exists s' : State,
    reset y s = Some s' /\
    shared s' /\
    heap s' (app_profile s') = CONFIG.DEFAULT_PROFILE.
Proof.
  unfold reset, _renderInputs. cbn [ui_profile next].
  eexists. split; [reflexivity |].
  match goal with |- shared (calculate _ ?t) /\ _ => set (s1 := t) end.
  destruct (calculate_keeps y s1) as (Ea & Eu & _ & Eh).
  unfold shared. rewrite Ea, Eu, Eh. split; [reflexivity |].
  unfold s1, with_inputs. cbn [heap app_profile]. apply store_at.
Qed.

Lemma handle_total (y : Z) (e : Event) (s : State) :
  exists s' : State, handle y e s = Some s'.
Proof.
  destruct e as [doc | |]; cbn [handle]; [eexists; reflexivity .. |].
  destruct (reset_shared y s) as (s' & H & _). now exists s'.
Qed.

Lemma shared_step (y : Z) (e : Event) (s s' : State) :
  shared s -> handle y e s = Some s' -> shared s'.
Proof.
  unfold shared. intros Hs H. destruct e as [doc | |]; cbn [handle] in H.
  - injection H as <-. exact Hs.
  - injection H as <-. unfold recalculate.
    destruct (calculate_keeps y (_updateFromInputs s)) as (Ea & Eu & _).
    destruct (updateFromInputs_keeps s) as (Ka & Ku & _).
    now rewrite Ea, Eu, Ka, Ku.
  - destruct (reset_shared y s) as (s1 & H1 & Hs1 & _).
    rewrite H1 in H. injection H as <-. exact Hs1.
Qed.

Lemma shared_run (y : Z) (events : list Event) :
  forall s s' : State,
    shared s -> after y (Some s) events = Some s' -> shared s'.
Proof.
  induction events as [| e events IH]; intros s s' Hs H; cbn [after] in H.
  - now injection H as <-.
  - destruct (handle_total y e s) as (s1 & H1). rewrite H1 in H.
    apply (IH s1 s'); [| exact H]. now apply (shared_step y e s).
Qed.

Lemma after_total (y : Z) (events : list Event) :
  forall s : State, exists s' : State, after y (Some s) events = Some s'.
Proof.
  induction events as [| e events IH]; intros s; cbn [after].
  - now exists s.
  - destruct (handle_total y e s) as (s1 & H1). rewrite H1. apply IH.
Qed.

Lemma shared_after_reset (y : Z) (events : list Event) :
  forall s s' : State,
    existsb isReset events = true ->
    after y (Some s) events = Some s' -> shared s'.
Proof.
  induction events as [| e events IH]; intros s s' Hr H; [discriminate |].
  cbn [after] in H. cbn [existsb] in Hr.
  destruct (handle_total y e s) as (s1 & H1). rewrite H1 in H.
  destruct (isReset e) eqn:Ee.
  - destruct e; try discriminate. cbn [handle] in H1.
    destruct (reset_shared y s) as (s2 & H2 & Hs2 & _).
    rewrite H2 in H1. injection H1 as <-.
    now apply (shared_run y events s2 s').
  - now apply (IH s1 s').
Qed.

(** X12. Once the reset button has been clicked, the app and its [ui]
    hold the same profile object for good, and from then on what the
    user enters is what [calculate] projects: after an edit and a
    calculate handler, the profile of the app is the former one with
    each field replaced by the number its input holds. *)
Theorem inputs_applied_after_reset (y : Z) (events : list Event)
    (doc : Id.Inputs) :
  existsb isReset events = true ->
  exists s s' : State,
    after y (load y) events = Some s /\
    ui_profile s = Some (app_profile s) /\
    after y (Some s) [UserEdits doc; CalculateFires] = Some s' /\
    ui_profile s' = Some (app_profile s') /\
    heap s' (app_profile s')
    = snd (updateFields doc (heap s (app_profile s))).
Proof.
  intros Hr.
  destruct (load_showsDefaults y) as (s0 & Hl & _). rewrite Hl.
  destruct (after_total y events s0) as (s & Hs).
  assert (Hsh : shared s) by now apply (shared_after_reset y events s0 s).
  exists s. eexists. split; [exact Hs |]. split; [exact Hsh |].
  cbn [after handle]. split; [reflexivity |].
  unfold recalculate.
  set (s1 := with_inputs doc s).
  destruct (calculate_keeps y (_updateFromInputs s1)) as (Ea & Eu & _ & Eh).
  destruct (updateFromInputs_keeps s1) as (Ka & Ku & _).
  rewrite Ea, Eu, Eh, Ka, Ku. split; [exact Hsh |].
  unfold _updateFromInputs.
  change (ui_profile s1) with (ui_profile s). rewrite Hsh.
  unfold with_heap. cbn [heap app_profile s1 with_inputs inputs].
  apply store_at.
Qed.

Lemma inputs_applied_after_reset_witness :
  exists s s' : State,
    after 2026 (load 2026) [ResetClicked] = Some s /\
    ui_profile s = Some (app_profile s) /\
    after 2026 (Some s)
      [UserEdits (renderedInputs (exampleProfile 2030 3)); CalculateFires]
    = Some s' /\
    ui_profile s' = Some (app_profile s') /\
    heap s' (app_profile s')
    = snd (updateFields (renderedInputs (exampleProfile 2030 3))
             (heap s (app_profile s))).
Proof.
  apply (inputs_applied_after_reset 2026 [ResetClicked]
           (renderedInputs (exampleProfile 2030 3))).
  reflexivity.
Defined.

Lemma noSavings_step (y : Z) (e : Event) (s s' : State) :
  noSavings s -> handle y e s = Some s' -> noSavings s'.
Proof.
  unfold noSavings. intros (Ha & u & Hu & Hs) H.
  destruct e as [doc | |]; cbn [handle] in H.
  - injection H as <-. split; [exact Ha | now exists u].
  - injection H as <-. unfold recalculate.
    destruct (calculate_keeps y (_updateFromInputs s)) as (Ea & Eu & _ & Eh).
    destruct (updateFromInputs_keeps s) as (Ka & Ku & _).
    rewrite Ea, Eu, !Eh, Ka, Ku.
    assert (Hh : forall r : ref,
               currentSavings (heap s r) = 0 ->
               currentSavings (heap (_updateFromInputs s) r) = 0).
    { intros r Hr. unfold _updateFromInputs. rewrite Hu.
      unfold with_heap, store. cbn [heap].
      destruct (Nat.eqb_spec r u) as [-> | _]; [| exact Hr].
      now rewrite updateFields_savings. }
    split; [now apply Hh |]. exists u. rewrite Eh. split; [exact Hu |].
    now apply Hh.
  - destruct (reset_shared y s) as (s1 & H1 & Hs1 & Hd).
    rewrite H1 in H. injection H as <-.
    split; [now rewrite Hd |]. exists (app_profile s1).
    split; [exact Hs1 | now rewrite Hd].
Qed.

Lemma noSavings_run (y : Z) (events : list Event) :
  forall s s' : State,
    noSavings s -> after y (Some s) events = Some s' -> noSavings s'.
Proof.
  induction events as [| e events IH]; intros s s' Hs H; cbn [after] in H.
  - now injection H as <-.
  - destruct (handle_total y e s) as (s1 & H1). rewrite H1 in H.
    apply (IH s1 s'); [| exact H]. now apply (noSavings_step y e s).
Qed.

(** X13. No input stands for the current savings, so nothing the user
    does changes them: after the load and any sequence of edits,
    calculate handlers and resets, the page is in a state in which the
    profile the app projects, and the one the [ui] updates, have current
    savings zero, the default. *)
Theorem savings_stay_zero (y : Z) (events : list Event) :
  exists s : State,
    after y (load y) events = Some s /\
    currentSavings (heap s (app_profile s)) = 0 /\
    exists u : ref,
      ui_profile s = Some u /\ currentSavings (heap s u) = 0.
Proof.
  destruct (load_showsDefaults y) as (s0 & Hl & Ea & Eu & Eh & _).
  rewrite Hl.
  destruct (after_total y events s0) as (s & Hs).
  exists s. split; [exact Hs |].
  apply (noSavings_run y events s0 s); [| exact Hs].
  unfold noSavings. rewrite Ea, Eh. split; [reflexivity |].
  exists 1%nat. split; [exact Eu |].
  unfold load, initialize, _renderInputs in Hl.
  cbn [ui_profile next blank] in Hl. injection Hl as <-.
  match goal with
  | |- context [heap (calculate _ ?t) _] => set (s1 := t)
  end.
  destruct (calculate_keeps y s1) as (_ & _ & _ & Ch). rewrite Ch.
  reflexivity.
Qed.

Lemma updateFields_noInputs (p : FinancialProfile) :
  snd (updateFields noInputs p) = p.
Proof. destruct p. reflexivity. Qed.

(** X14. When no input holds a number (each is missing, blank or not a
    number), [_updateFromInputs] falls back on the values the profile
    has: no profile changes, and nothing else on the page does. *)
Theorem updateFromInputs_fallback (s : State) :
  inputs s = noInputs ->
  (forall r : ref, heap (_updateFromInputs s) r = heap s r) /\
  app_profile (_updateFromInputs s) = app_profile s /\
  ui_profile (_updateFromInputs s) = ui_profile s /\
  summaryCards (_updateFromInputs s) = summaryCards s /\
  ui_chart (_updateFromInputs s) = ui_chart s /\
  alerts (_updateFromInputs s) = alerts s.
Proof.
  intros Hd.
  destruct (updateFromInputs_keeps s) as (Ka & Ku & _ & Ks & Kc & Kl).
  repeat split; try assumption.
  intros r. unfold _updateFromInputs.
  destruct (ui_profile s) as [u |]; [| reflexivity].
  rewrite Hd, updateFields_noInputs. apply store_same.
Qed.

Lemma updateFromInputs_fallback_witness :
  heap (_updateFromInputs
          {| heap := fun _ => exampleProfile 2030 3; next := 1%nat;
             app_profile := 0%nat; ui_profile := Some 0%nat;
             ui_chart := None; inputs := noInputs;
             summaryCards := None; alerts := []; console := [] |}) 0%nat
  = exampleProfile 2030 3.
Proof.
  apply (proj1 (updateFromInputs_fallback
                  {| heap := fun _ => exampleProfile 2030 3; next := 1%nat;
                     app_profile := 0%nat; ui_profile := Some 0%nat;
                     ui_chart := None; inputs := noInputs;
                     summaryCards := None; alerts := []; console := [] |}
                  eq_refl) 0%nat).
Defined.

(** X15. From any state of the page a click on the reset button brings
    back the defaults: the app and its [ui] hold one fresh profile equal
    to the default one, the inputs show its values, the summary cards
    and the chart are those of the default projection, and no alert is
    added. *)
Theorem reset_restores_defaults (y : Z) (s : State) :
  exists s' : State,
    reset y s = Some s' /\
    heap s' (app_profile s') = CONFIG.DEFAULT_PROFILE /\
    ui_profile s' = Some (app_profile s') /\
    app_profile s' = next s /\
    inputs s' = renderedInputs CONFIG.DEFAULT_PROFILE /\
    summaryCards s' = summaryCards (calculate y blank) /\
    ui_chart s' = ui_chart (calculate y blank) /\
    alerts s' = alerts s.
Proof.
  unfold reset, _renderInputs. cbn [ui_profile next].
  eexists. split; [reflexivity |].
  match goal with
  | |- context [heap (calculate _ ?t) _] => set (s1 := t)
  end.
  destruct (calculate_keeps y s1) as (Ea & Eu & Ei & Eh).
  assert (Hd : heap s1 (app_profile s1) = CONFIG.DEFAULT_PROFILE).
  { unfold s1, with_inputs. cbn [heap app_profile]. apply store_at. }
  destruct (calculate_default y s1 Hd) as (Es & Ec & El).
  rewrite Ea, Eu, Ei, Eh, Es, Ec, El, Hd.
  unfold s1, with_inputs. cbn [app_profile ui_profile inputs alerts heap].
  rewrite store_at. repeat split.
Qed.
